(** * Deskmate-AI: the adaptive command-resolution engine

    A shallow embedding of the resolver ([backend/core/mapper.py]), the
    learner ([backend/core/learner.py]), the mapping store
    ([backend/services/database.py]), the undo/redo history engine
    ([backend/services/undo_redo.py]) and the command handler
    ([backend/core/command_handler.py]), with the properties the
    specification states about them; and of the code around them, the
    action catalog ([backend/core/registry.py]), the permission gate
    ([backend/security/permissions.py]) and the command memory
    ([backend/core/memory.py]), with further properties of the code.

    Conventions.
    - A Python [str] is a [string]: a sequence of code points below 256.
    - A Python exception is a value [Raise e]; a [try/except Exception]
      block is a match on the outcome, or [catch] where state is threaded.
    - External libraries are parameters of the sections that use them:
      [fuzz.token_set_ratio] (fuzzywuzzy), [re.search] with the resolver's
      URL pattern, the modules [importlib] can find, the console. *)

From Stdlib Require Import ZArith List String Ascii Bool Lia PrimFloat Uint63.
From Stdlib Require Import Sorted Permutation.
From stdpp Require Import base option strings gmap.
Import ListNotations.

Local Open Scope string_scope.
Local Open Scope Z_scope.

(** ** Python values, exceptions, dictionaries used as mappings *)

Inductive pyval : Type :=
| PNone
| PBool (b : bool)
| PInt (z : Z)
| PStr (s : string).

(** Keyword arguments: a dict with string keys, in insertion order. *)
Definition pykwargs : Type := list (string * pyval).

Inductive exn : Type :=
| Exn (kind message : string).

Inductive outcome (A : Type) : Type :=
| Ok (a : A)
| Raise (e : exn).
Arguments Ok {A} a.
Arguments Raise {A} e.

(** The dictionaries the resolver passes around have at most the keys
    ["action_name"], ["module"], ["function"], ["args"], ["kwargs"]; a field
    is [None] when the key is absent. *)
Record Mapping : Type := mkMapping {
  action_name : option string;
  module : option string;
  function : option string;
  args : option (list pyval);
  kwargs : option pykwargs
}.

Definition present {A} (o : option A) : bool :=
  match o with Some _ => true | None => false end.

(** [bool(mapping)] for a dict: true when it has a key. *)
Definition dict_truthy (m : Mapping) : bool :=
  present (action_name m) || present (module m) || present (function m)
  || present (args m) || present (kwargs m).

(** [bool(s)] for a [str]. *)
Definition str_truthy (s : string) : bool := negb (s =? "")%string.

(** [bool(o)] for an [Optional[str]]. *)
Definition optstr_truthy (o : option string) : bool :=
  match o with Some s => str_truthy s | None => false end.

(** ** The string methods the engine calls *)

Module Py.

(** [str.isspace] on one code point below 256. *)
Definition isspace (c : ascii) : bool :=
  let n := nat_of_ascii c in
  (((9 <=? n) && (n <=? 13)) || ((28 <=? n) && (n <=? 32))
   || (n =? 133) || (n =? 160))%nat.

Fixpoint lstrip (s : string) : string :=
  match s with
  | EmptyString => EmptyString
  | String c r => if isspace c then lstrip r else s
  end.

Fixpoint rstrip (s : string) : string :=
  match s with
  | EmptyString => EmptyString
  | String c r =>
      let r' := rstrip r in
      if (r' =? "")%string && isspace c then EmptyString else String c r'
  end.

Definition strip (s : string) : string := rstrip (lstrip s).

Definition lower_char (c : ascii) : ascii :=
  let n := nat_of_ascii c in
  if (((65 <=? n) && (n <=? 90))
      || ((192 <=? n) && (n <=? 222) && negb (n =? 215)))%nat
  then ascii_of_nat (n + 32) else c.

Fixpoint lower (s : string) : string :=
  match s with
  | EmptyString => EmptyString
  | String c r => String (lower_char c) (lower r)
  end.

(** [s.split()]: the maximal runs of non-space characters. *)
Fixpoint split (s : string) : list string :=
  match s with
  | EmptyString => []
  | String c r =>
      if isspace c then split r
      else match r with
           | EmptyString => [String c EmptyString]
           | String c' _ =>
               if isspace c' then String c EmptyString :: split r
               else match split r with
                    | t :: ts => String c t :: ts
                    | [] => [String c EmptyString]
                    end
           end
  end.

(** [s.split(d, 1)]: the text before the first [d] and, when there is
    one, the text after it. *)
Fixpoint split_once (d : ascii) (s : string) : string * option string :=
  match s with
  | EmptyString => (EmptyString, None)
  | String c r =>
      if Ascii.eqb c d then (EmptyString, Some r)
      else let '(a, b) := split_once d r in (String c a, b)
  end.

(** [d in s] for a one-character [d]. *)
Definition contains (d : ascii) (s : string) : bool :=
  present (snd (split_once d s)).

(** [s.rsplit(d, 1)] when [d] occurs in [s]. *)
Fixpoint rsplit_once (d : ascii) (s : string) : option (string * string) :=
  match s with
  | EmptyString => None
  | String c r =>
      match rsplit_once d r with
      | Some (a, b) => Some (String c a, b)
      | None => if Ascii.eqb c d then Some (EmptyString, r) else None
      end
  end.

(** [s.split(d)[-1]]. *)
Definition last_segment (d : ascii) (s : string) : string :=
  match rsplit_once d s with
  | Some (_, b) => b
  | None => s
  end.

Definition startswith (p s : string) : bool := String.prefix p s.

(** [max(xs)] for a non-empty sequence [x :: xs] of ints. *)
Definition max (x : Z) (xs : list Z) : Z := fold_left Z.max xs x.

End Py.

(** ** The mapping store: [backend/services/database.py] *)

Module Database.

(** One row of [mappings(id, command_text UNIQUE, action_name)]. *)
Record MappingRow : Type := mkRow {
  row_id : Z;
  row_command_text : string;
  row_action_name : string
}.

(** One row of [history(id, command, action, timestamp)]. *)
Record HistoryRow : Type := mkHistory {
  history_id : Z;
  history_command : string;
  history_action : string;
  history_timestamp : string
}.

(** The database file: both tables in rowid order, and the AUTOINCREMENT
    counters. *)
Record DB : Type := mkDB {
  mappings : list MappingRow;
  mappings_seq : Z;
  history : list HistoryRow;
  history_seq : Z
}.

(** [_init_db] on a fresh file. *)
Definition _init_db : DB :=
  {| mappings := []; mappings_seq := 0; history := []; history_seq := 0 |}.

Definition has_text (command_text : string) (r : MappingRow) : bool :=
  (row_command_text r =? command_text)%string.

(** [INSERT OR REPLACE INTO mappings(command_text, action_name)]: the rows
    that conflict on the UNIQUE column are deleted, then the new row is
    inserted under a fresh id. *)
Definition add_mapping (command_text action_name : string) (d : DB) : DB :=
  let kept := List.filter (fun r => negb (has_text command_text r)) (mappings d) in
  let new_id := mappings_seq d + 1 in
  {| mappings := kept ++ [mkRow new_id command_text action_name];
     mappings_seq := new_id;
     history := history d;
     history_seq := history_seq d |}.

(** [SELECT action_name FROM mappings WHERE command_text = ?], first row. *)
Definition get_mapping (command_text : string) (d : DB) : option Mapping :=
  match List.find (has_text command_text) (mappings d) with
  | None => None
  | Some row =>
      let action_name := row_action_name row in
      match Py.split_once ":" action_name with
      | (module, Some function) =>
          Some (mkMapping (Some action_name) (Some module) (Some function)
                          (Some []) (Some []))
      | (_, None) => Some (mkMapping (Some action_name) None None None None)
      end
  end.

(** [ORDER BY command_text ASC] under the BINARY collation. *)
Fixpoint insert_sorted (r : MappingRow) (rows : list MappingRow) : list MappingRow :=
  match rows with
  | [] => [r]
  | r' :: rest =>
      if String.leb (row_command_text r) (row_command_text r')
      then r :: rows else r' :: insert_sorted r rest
  end.

Definition order_by_command_text (rows : list MappingRow) : list MappingRow :=
  fold_right insert_sorted [] rows.

Definition list_mappings (d : DB) : list (string * string) :=
  List.map (fun r => (row_command_text r, row_action_name r))
           (order_by_command_text (mappings d)).

(** [log_history], with [ts] the reading of [datetime.utcnow().isoformat()]. *)
Definition log_history (ts : string) (command action : string) (d : DB) : DB :=
  let new_id := history_seq d + 1 in
  {| mappings := mappings d;
     mappings_seq := mappings_seq d;
     history := history d ++ [mkHistory new_id command action ts];
     history_seq := new_id |}.

Definition upsert_mapping (command module function : string)
    (args : option (list pyval)) (kwargs : option pykwargs) (d : DB) : DB :=
  let action_name :=
    if str_truthy module && str_truthy function
    then module ++ ":" ++ function
    else if str_truthy function then function
    else if str_truthy module then module
    else "" in
  add_mapping command action_name d.

Definition list_commands (d : DB) : list string :=
  List.map fst (list_mappings d).

(** [DELETE FROM mappings WHERE command_text = ?], as
    [clear_command_mapping] issues it. *)
Definition delete_mapping (command_text : string) (d : DB) : DB :=
  {| mappings := List.filter (fun r => negb (has_text command_text r)) (mappings d);
     mappings_seq := mappings_seq d;
     history := history d;
     history_seq := history_seq d |}.

(** The states the store can be in: what the public operations make of a
    fresh database. *)
Inductive reachable : DB -> Prop :=
| reach_init : reachable _init_db
| reach_add c a d : reachable d -> reachable (add_mapping c a d)
| reach_log ts c a d : reachable d -> reachable (log_history ts c a d)
| reach_delete c d : reachable d -> reachable (delete_mapping c d).

(** The [command_text] column, in rowid order. *)
Definition command_texts (d : DB) : list string :=
  List.map row_command_text (mappings d).

(** The rows stored for one command text. *)
Definition rows_for (command_text : string) (d : DB) : list MappingRow :=
  List.filter (has_text command_text) (mappings d).

(** The order of [ORDER BY command_text ASC] on rows. *)
Definition text_le (x y : MappingRow) : Prop :=
  String.leb (row_command_text x) (row_command_text y) = true.

(** One dict of the list [get_history] returns. *)
Record HistoryEvent : Type := mkEvent {
  event_command : string;
  event_action : string;
  event_timestamp : string
}.

Definition event_of (h : HistoryRow) : HistoryEvent :=
  mkEvent (history_command h) (history_action h) (history_timestamp h).

(** [get_history]: [limit = max(1, int(limit))], then
    [SELECT command, action, timestamp FROM history ORDER BY id DESC LIMIT ?]
    (the table is kept in id order). SQLite binds the limit as a signed
    64-bit integer; [sqlite3] refuses an int that does not fit, and
    [_conn] rolls back and lets the exception through. *)
Definition get_history (limit : Z) (d : DB) : outcome (list HistoryEvent) :=
  let limit := Z.max 1 limit in
  if 2 ^ 63 <=? limit
  then Raise (Exn "OverflowError"
                  "Python int too large to convert to SQLite INTEGER")
  else Ok (List.map event_of (firstn (Z.to_nat limit) (rev (history d)))).

End Database.

(** ** The history engine: [backend/services/undo_redo.py] *)

Module UndoRedo.

Record ActionRecord : Type := mkRecord {
  function_path : string;
  args : list pyval;
  kwargs : pykwargs;
  reversible : bool;
  undo_function_path : option string
}.

(** What [importlib] and [getattr] hand back: a function that is called
    with positional and keyword arguments and returns or raises. *)
Definition callable : Type := list pyval -> pykwargs -> outcome pyval.

(** One call the engine made of a function it imported, by the dotted
    path it imported the function from. *)
Record Call : Type := mkCall {
  call_path : string;
  call_args : list pyval;
  call_kwargs : pykwargs
}.

(** The dicts [undo_last] and [redo_last] return. [function_executed] is
    [None] when the key is absent and [Some None] when it holds Python's
    [None]. *)
Record Result : Type := mkResult {
  status : string;
  message : string;
  function_executed : option (option string)
}.

(** [stack.pop()] on a list that is used as a stack: the last element. *)
Fixpoint pop {A} (stack : list A) : option (list A * A) :=
  match stack with
  | [] => None
  | x :: rest =>
      match pop rest with
      | None => Some ([], x)
      | Some (rest', top) => Some (x :: rest', top)
      end
  end.

(** A record that [undo_last] has no inverse to call for. *)
Definition irreversible (r : ActionRecord) : Prop :=
  reversible r = false /\ undo_function_path r = None.

Section Manager.

(** The history table as the engine sees it: [db.log_history] either
    commits a row or raises. *)
Variable History : Type.
Variable log_history : string -> string -> History -> outcome History.

(** [importlib.import_module], then [getattr(module, name, None)]. *)
Variable import_module : string -> option (string -> option callable).

Record World : Type := mkWorld {
  _executed_stack : list ActionRecord;
  _undone_stack : list ActionRecord;
  db : History;
  calls : list Call
}.

(** [UndoRedoManager.__init__]. *)
Definition __init__ (h : History) : World :=
  {| _executed_stack := []; _undone_stack := []; db := h; calls := [] |}.

(** [try: db.log_history(...) except Exception: LOGGER.debug(...)]. *)
Definition try_log (command action : string) (h : History) : History :=
  match log_history command action h with
  | Ok h' => h'
  | Raise _ => h
  end.

Definition record_action (function_path : string)
    (args : option (list pyval)) (kwargs : option pykwargs)
    (reversible : bool) (undo_function_path : option string)
    (w : World) : World :=
  let record :=
    {| function_path := function_path;
       args := default [] args;
       kwargs := default [] kwargs;
       reversible := reversible;
       undo_function_path := undo_function_path |} in
  {| _executed_stack := _executed_stack w ++ [record];
     _undone_stack := [];
     db := try_log function_path "EXECUTE" (db w);
     calls := calls w |}.

Definition _import_function (function_path : string) : option callable :=
  if negb (str_truthy function_path) || negb (Py.contains "." function_path)
  then None
  else match Py.rsplit_once "." function_path with
       | None => None
       | Some (module_name, func_name) =>
           match import_module module_name with
           | None => None
           | Some module => module func_name
           end
       end.

(** The [try] block of [undo_last] and [redo_last]: import the function,
    call it with the record's [args] and [kwargs]; the call is logged,
    and an exception becomes the error dict. *)
Definition invoke (path done : string) (record : ActionRecord) (missing : string)
    (w : World) : Result * World :=
  match _import_function path with
  | None => (mkResult "error" missing (Some None), w)
  | Some fn =>
      let w' :=
        {| _executed_stack := _executed_stack w;
           _undone_stack := _undone_stack w;
           db := db w;
           calls := calls w ++ [mkCall path (args record) (kwargs record)] |} in
      match fn (args record) (kwargs record) with
      | Ok _ => (mkResult "success" done (Some (Some path)), w')
      | Raise (Exn _ msg) => (mkResult "error" msg (Some None), w')
      end
  end.

Definition undo_last (w : World) : Result * World :=
  match pop (_executed_stack w) with
  | None => (mkResult "error" "Nothing to undo" None, w)
  | Some (rest, record) =>
      let w1 :=
        {| _executed_stack := rest;
           _undone_stack := _undone_stack w ++ [record];
           db := try_log (function_path record) "UNDO" (db w);
           calls := calls w |} in
      if negb (reversible record)
         || negb (optstr_truthy (undo_function_path record))
      then (mkResult "error" "Action is not reversible" (Some None), w1)
      else invoke (default "" (undo_function_path record)) "Undo executed"
                  record "Undo function not found" w1
  end.

Definition redo_last (w : World) : Result * World :=
  match pop (_undone_stack w) with
  | None => (mkResult "error" "Nothing to redo" None, w)
  | Some (rest, record) =>
      let w1 :=
        {| _executed_stack := _executed_stack w ++ [record];
           _undone_stack := rest;
           db := try_log (function_path record) "REDO" (db w);
           calls := calls w |} in
      invoke (function_path record) "Redo executed"
             record "Function not found for redo" w1
  end.

(** Both stacks of the engine. *)
Definition stacks (w : World) : list ActionRecord * list ActionRecord :=
  (_executed_stack w, _undone_stack w).

(** Every record the engine holds, oldest executed first and the one that
    a redo would bring back next right after the executed ones. *)
Definition held (w : World) : list ActionRecord :=
  (_executed_stack w ++ rev (_undone_stack w))%list.

(** [record_action] called with the fields of [a]. *)
Definition record (a : ActionRecord) (w : World) : World :=
  record_action (function_path a) (Some (args a)) (Some (kwargs a))
                (reversible a) (undo_function_path a) w.

End Manager.

Arguments _executed_stack {History} w.
Arguments _undone_stack {History} w.
Arguments db {History} w.
Arguments calls {History} w.
Arguments mkWorld {History}.
Arguments __init__ {History} h.
Arguments stacks {History} w.
Arguments held {History} w.

End UndoRedo.

(** ** The action catalog as the resolver reads it: [backend/core/registry.py] *)

Module Registry.

(** A value of the dict [get_registry()] returns. [CommandRegistry] stores
    [{"module_path", "function_name"}]; the resolver also accepts
    [{"module", "function"}]. *)
Inductive Entry : Type :=
| Discovered (module_path function_name : string)
| Direct (module function : option string).

(** [_register_module_functions] for one public function [name] of the
    module at [module_path]. *)
Definition register (module_path name : string)
    (registry : gmap string Entry) : gmap string Entry :=
  <[ Py.last_segment "." module_path ++ ":" ++ name
     := Discovered module_path name ]> registry.

(** A module [pkgutil.iter_modules] lists under [backend.automation]: its
    dotted name and, when [importlib.import_module] returns it, the names
    [inspect.getmembers(module, inspect.isfunction)] yields. *)
Record ModuleInfo : Type := mkModuleInfo {
  name : string;
  functions : option (list string)
}.

Definition _register_module_functions (module_path : string)
    (members : list string) (registry : gmap string Entry)
    : gmap string Entry :=
  fold_left
    (fun registry name =>
       if Py.startswith "_" name then registry
       else register module_path name registry)
    members registry.

(** [CommandRegistry()]: [package] is [None] when [backend.automation]
    cannot be imported. *)
Definition _discover_modules_and_functions
    (package : option (list ModuleInfo)) : gmap string Entry :=
  match package with
  | None => ∅
  | Some modules =>
      fold_left
        (fun registry module_info =>
           match functions module_info with
           | None => registry
           | Some members =>
               _register_module_functions (name module_info) members registry
           end)
        modules ∅
  end.

End Registry.

(** ** What the resolver and the learner find around them *)

Record Env : Type := mkEnv {
  (** [fuzz.token_set_ratio], an int from 0 to 100. *)
  token_set_ratio : string -> string -> Z;
  (** [re.search] with the pattern of [_enrich_mapping_with_args], group 1. *)
  re_search_url : string -> option string;
  (** The synonym index [_load_commands_index] reads at a path ([{}] when
      the file cannot be read), in the order of the JSON object. *)
  load_commands_index : string -> list (string * list string);
  (** [CommandRegistry().get_registry()], or [None] when the import fails. *)
  CommandRegistry : option (gmap string Registry.Entry);
  (** Whether [backend.services.database] can be imported. *)
  database_module : bool;
  (** What [_interactive_manual_map] gets out of the console. *)
  console_manual_map : string -> list string -> Mapping;
  (** [_default_commands_path()]. *)
  default_commands_path : string
}.

(** What a resolution does besides returning: the store it leaves, and the
    questions it put to the user, oldest first. *)
Inductive Event : Type :=
| EvConfirm (action_key : string)
| EvInteractive (text_command : string)
| EvManualMap (text_command : string).

Record State : Type := mkState {
  store : Database.DB;
  prompts : list Event
}.

(** A state and exception monad for the code that threads both. *)
Definition M (A : Type) : Type := State -> outcome A * State.

Definition ret {A} (a : A) : M A := fun st => (Ok a, st).

Definition raise {A} (e : exn) : M A := fun st => (Raise e, st).

Definition bind {A B} (c : M A) (k : A -> M B) : M B :=
  fun st =>
    match c st with
    | (Ok a, st') => k a st'
    | (Raise e, st') => (Raise e, st')
    end.

Definition catch {A} (c : M A) (handler : exn -> M A) : M A :=
  fun st =>
    match c st with
    | (Ok a, st') => (Ok a, st')
    | (Raise e, st') => handler e st'
    end.

Definition lift {A} (o : outcome A) : M A := fun st => (o, st).

Definition gets {A} (f : Database.DB -> A) : M A := fun st => (Ok (f (store st)), st).

Definition modify (f : Database.DB -> Database.DB) : M unit :=
  fun st => (Ok tt, mkState (f (store st)) (prompts st)).

Definition ask {A} (e : Event) (answer : outcome A) : M A :=
  fun st => (answer, mkState (store st) (prompts st ++ [e])).

Declare Scope py_scope.
Delimit Scope py_scope with py.
Notation "x <- c ;; k" := (bind c (fun x => k))
  (at level 100, c at next level, right associativity) : py_scope.

Definition RuntimeError (message : string) : exn := Exn "RuntimeError" message.
Definition ValueError (message : string) : exn := Exn "ValueError" message.
Definition AttributeError (message : string) : exn := Exn "AttributeError" message.

(** The loop both matchers run: keep the first candidate with the highest
    score above 0. *)
Definition best_match {A} (score_of : A -> Z) (name_of : A -> string)
    (candidates : list A) : option string * Z :=
  fold_left
    (fun (best : option string * Z) (c : A) =>
       let score := score_of c in
       if snd best <? score then (Some (name_of c), score) else best)
    candidates (None, 0).

(** What that loop has found after the candidates [seen]: nothing as long
    as no score is above 0, else the name and score of the first candidate
    with the highest score. *)
Definition best_so_far {A} (score_of : A -> Z) (name_of : A -> string)
    (seen : list A) (best : option string * Z) : Prop :=
  match fst best with
  | None => snd best = 0 /\ Forall (fun c => score_of c <= 0) seen
  | Some name =>
      exists before c after,
        seen = (before ++ c :: after)%list
        /\ name = name_of c /\ score_of c = snd best /\ 0 < snd best
        /\ Forall (fun x => score_of x < score_of c) before
        /\ Forall (fun x => score_of x <= score_of c) after
  end.

(** The score of one synonym entry: the best ratio over its key and its
    aliases. *)
Definition entry_score (env : Env) (text_command : string)
    (entry : string * list string) : Z :=
  Py.max (token_set_ratio env text_command (fst entry))
         (List.map (token_set_ratio env text_command) (snd entry)).

(** [registry.get(action_key)] turned into a mapping, as both
    [_map_action_via_registry] methods do before they part ways. *)
Definition registry_mapping (registry : option (gmap string Registry.Entry))
    (action_key : string) : option Mapping :=
  match registry with
  | None => None
  | Some registry =>
      match registry !! action_key with
      | None => None
      | Some entry =>
          let '(module, function) :=
            match entry with
            | Registry.Discovered module_path function_name =>
                (Some (Py.last_segment "." module_path), Some function_name)
            | Registry.Direct module function => (module, function)
            end in
          if negb (optstr_truthy module) || negb (optstr_truthy function)
          then None
          else Some (mkMapping None module function (Some []) (Some []))
      end
  end.

Definition obind {A B} (o : outcome A) (k : A -> outcome B) : outcome B :=
  match o with
  | Ok a => k a
  | Raise e => Raise e
  end.

(** [sorted(xs)] for a list of [str]. *)
Fixpoint insert_str (s : string) (xs : list string) : list string :=
  match xs with
  | [] => [s]
  | x :: rest => if String.leb s x then s :: xs else x :: insert_str s rest
  end.

Definition sorted (xs : list string) : list string := fold_right insert_str [] xs.

(** ** The learner: [backend/core/learner.py] *)

Module Learner.

(** The names the body of [class Learner] binds (lines 36 to 311).
    [_validate_mapping], [_default_commands_path], [_load_commands_index]
    and [_import_database] are not among them: the source defines them,
    indented one level, after the [try] statement of the module-level
    function [clear_command_mapping], so they are local functions of
    [clear_command_mapping] and no attributes of [Learner]. *)
Definition class_body : list string :=
  [ "__init__"; "handle_unknown"; "_suggest_action";
    "_map_action_via_registry"; "_persist_mapping";
    "_list_registry_actions"; "_print_box"; "_prompt_module_choice";
    "_list_module_functions"; "_prompt_function_choice";
    "_interactive_manual_map" ].

(** [self.<name>(...)]: attribute lookup on the instance, then the call. *)
Definition call_method {A} (name : string) (body : outcome A) : outcome A :=
  if existsb (String.eqb name) class_body then body
  else Raise (AttributeError
                ("'Learner' object has no attribute '" ++ name ++ "'")).

Record Learner : Type := mkLearner {
  confirm_callback : string -> outcome bool;
  manual_map_callback : string -> list string -> outcome Mapping;
  commands_config_path : string;
  _registry : option (gmap string Registry.Entry);
  _db : bool;
  _commands_index : list (string * list string)
}.

(** The result dict of [handle_unknown]. *)
Record Learned : Type := mkLearned {
  status : string;
  message : string;
  function_executed : string;
  source : string
}.

Definition _validate_mapping (mapping : Mapping) : outcome unit :=
  if negb (optstr_truthy (module mapping))
  then Raise (ValueError "Mapping must contain non-empty 'module'")
  else if negb (optstr_truthy (function mapping))
  then Raise (ValueError "Mapping must contain non-empty 'function'")
  else Ok tt.

Section WithEnv.

Variable env : Env.

Definition __init__ (confirm_callback : string -> outcome bool)
    (manual_map_callback : string -> list string -> outcome Mapping)
    (commands_config_path : option string) : outcome Learner :=
  obind (if optstr_truthy commands_config_path
         then Ok (default "" commands_config_path)
         else call_method "_default_commands_path"
                          (Ok (default_commands_path env)))
    (fun path =>
  obind (call_method "_import_database" (Ok (database_module env)))
    (fun db =>
  obind (call_method "_load_commands_index"
                     (Ok (load_commands_index env path)))
    (fun index =>
  Ok {| confirm_callback := confirm_callback;
        manual_map_callback := manual_map_callback;
        commands_config_path := path;
        _registry := CommandRegistry env;
        _db := db;
        _commands_index := index |}))).

Definition _suggest_action (self : Learner) (text_command : string)
    : option string :=
  let '(best_key, best_score) :=
    best_match (entry_score env text_command) fst (_commands_index self) in
  if 70 <=? best_score then best_key else None.

Definition _map_action_via_registry (self : Learner) (action_key : string)
    : option Mapping :=
  match registry_mapping (_registry self) action_key with
  | None => None
  | Some mapping =>
      match call_method "_validate_mapping" (_validate_mapping mapping) with
      | Ok _ => Some mapping
      | Raise _ => None
      end
  end.

Definition _persist_mapping (self : Learner) (text_command : string)
    (mapping : Mapping) : M unit :=
  if negb (_db self)
  then raise (RuntimeError
                "Database service not available. Cannot persist new mapping.")
  else modify (Database.upsert_mapping text_command
                 (default "" (module mapping)) (default "" (function mapping))
                 (Some (default [] (args mapping)))
                 (Some (default [] (kwargs mapping)))).

Definition _list_registry_actions (self : Learner) : list string :=
  match _registry self with
  | Some reg => sorted (List.map fst (map_to_list reg))
  | None => sorted (List.map fst (_commands_index self))
  end.

Definition empty_mapping : Mapping :=
  mkMapping None (Some "") (Some "") (Some []) (Some []).

(** Lines 62 to 80 of [handle_unknown]: the suggestion, put to the user
    and mapped through the registry. *)
Definition confirm_suggestion (self : Learner) (text_command : string)
    : M (option Mapping * string) :=
  (let suggested_action := _suggest_action self text_command in
   if optstr_truthy suggested_action
   then catch
          (confirmed <- ask (EvConfirm (default "" suggested_action))
                            (confirm_callback self (default "" suggested_action)) ;;
           if (confirmed : bool)
           then match _map_action_via_registry self (default "" suggested_action) with
                | Some mapping => ret (Some mapping, "auto")
                | None => ret (None, "manual")
                end
           else ret (None, "manual"))
          (fun _ => ret (None, "manual"))
   else ret (None, "manual"))%py.

(** Lines 82 to 90 of [handle_unknown]: the manual flows. *)
Definition map_by_hand (self : Learner) (text_command : string) : M Mapping :=
  (let available_actions := _list_registry_actions self in
   interactive <- ask (EvInteractive text_command)
                      (Ok (console_manual_map env text_command available_actions)) ;;
   if negb (dict_truthy interactive)
      || negb (optstr_truthy (module interactive))
   then catch (ask (EvManualMap text_command)
                   (manual_map_callback self text_command available_actions))
              (fun _ => ret empty_mapping)
   else ret interactive)%py.

Definition handle_unknown (self : Learner) (text_command : string)
    : M Learned :=
  (chosen <- confirm_suggestion self text_command ;;
   chosen_mapping <-
     match fst chosen with
     | Some mapping => ret mapping
     | None => map_by_hand self text_command
     end ;;
   _ <- lift (call_method "_validate_mapping" (_validate_mapping chosen_mapping)) ;;
   _ <- _persist_mapping self text_command chosen_mapping ;;
   ret {| status := "success";
          message := "New command mapping saved";
          function_executed :=
            default "" (module chosen_mapping) ++ "."
            ++ default "" (function chosen_mapping);
          source := snd chosen |})%py.

End WithEnv.

(** What [clear_command_mapping] prints in its box. *)
Inductive Cleared : Type :=
| NothingToClear
| NoDatabase (normalized : string)
| ClearedMapping (normalized : string)
| NoMappingFound (normalized : string).

(** [clear_command_mapping], lines 316 to 400: a blank command does
    nothing; else the row of the stripped text is deleted, and the box says
    whether [get_mapping] had found one. *)
Definition clear_command_mapping (env : Env) (command : string)
    (d : Database.DB) : Cleared * Database.DB :=
  if negb (str_truthy (Py.strip command)) then (NothingToClear, d)
  else
    let normalized := Py.strip command in
    if negb (database_module env) then (NoDatabase normalized, d)
    else
      let exists_ := Database.get_mapping normalized d in
      (match exists_ with
       | Some m => if dict_truthy m then ClearedMapping normalized
                   else NoMappingFound normalized
       | None => NoMappingFound normalized
       end,
       Database.delete_mapping normalized d).

End Learner.

(** ** The resolver: [backend/core/mapper.py] *)

Module Mapper.

(** The double that Python's literal [0.8] denotes. *)
Definition threshold : float := 0x1.999999999999ap-1%float.

(** [float(n)] for an int that fits 63 bits. *)
Definition float_of_int (n : Z) : float := PrimFloat.of_uint63 (Uint63.of_Z n).

(** [best_score / 100.0]. *)
Definition normalized (best_score : Z) : float :=
  PrimFloat.div (float_of_int best_score) (float_of_int 100).

Record AdaptiveMapper : Type := mkMapper {
  intent_recognizer : option (string -> outcome (option string * float));
  confirm_callback : string -> outcome bool;
  manual_map_callback : string -> list string -> outcome Mapping;
  commands_config_path : string;
  _registry : option (gmap string Registry.Entry);
  _db : bool;
  (** Whether [Learner] could be imported. *)
  _learner_ctor : bool;
  _commands_index : list (string * list string)
}.

Section WithEnv.

Variable env : Env.

(** [AdaptiveMapper.__init__] with both callbacks given. *)
Definition __init__
    (intent_recognizer : option (string -> outcome (option string * float)))
    (confirm_callback : string -> outcome bool)
    (manual_map_callback : string -> list string -> outcome Mapping)
    (commands_config_path : option string) (learner_importable : bool)
    : AdaptiveMapper :=
  let path := if optstr_truthy commands_config_path
              then default "" commands_config_path
              else default_commands_path env in
  {| intent_recognizer := intent_recognizer;
     confirm_callback := confirm_callback;
     manual_map_callback := manual_map_callback;
     commands_config_path := path;
     _registry := CommandRegistry env;
     _db := database_module env;
     _learner_ctor := learner_importable;
     _commands_index := load_commands_index env path |}.

Definition _get_db_mapping (self : AdaptiveMapper) (command_text : string)
    (d : Database.DB) : option Mapping :=
  if negb (_db self) then None else Database.get_mapping command_text d.

Definition _list_db_commands (self : AdaptiveMapper) (d : Database.DB)
    : list string :=
  if negb (_db self) then [] else Database.list_commands d.

Definition _map_action_via_registry (self : AdaptiveMapper)
    (action_key : string) : option Mapping :=
  registry_mapping (_registry self) action_key.

(** The loop of [_recognize_or_match] over the synonym index. *)
Definition best_synonym (self : AdaptiveMapper) (text_command : string)
    : option string * Z :=
  best_match (entry_score env text_command) fst (_commands_index self).

Definition _recognize_or_match (self : AdaptiveMapper) (text_command : string)
    : option string * float :=
  let matched :=
    let '(best_key, best_score) := best_synonym self text_command in
    if optstr_truthy best_key then (best_key, normalized best_score)
    else (None, 0%float) in
  match intent_recognizer self with
  | None => matched
  | Some recognizer =>
      match recognizer text_command with
      | Ok (intent_key, confidence) =>
          if optstr_truthy intent_key then (intent_key, confidence)
          else matched
      | Raise _ => matched
      end
  end.

Definition _match_existing_db_command (self : AdaptiveMapper)
    (text_command : string) (d : Database.DB) : option Mapping :=
  let commands := _list_db_commands self d in
  match commands with
  | [] => None
  | _ :: _ =>
      let '(best_text, best_score) :=
        best_match (token_set_ratio env text_command) id commands in
      if optstr_truthy best_text && (80 <=? best_score)
      then _get_db_mapping self (default "" best_text) d
      else None
  end.

Definition _enrich_mapping_with_args (text_command : string)
    (mapping : Mapping) : Mapping :=
  let module' := Py.strip (default "" (module mapping)) in
  let function' := Py.strip (default "" (function mapping)) in
  let args' := default [] (args mapping) in
  let kwargs' := default [] (kwargs mapping) in
  let enriched (a : list pyval) :=
    mkMapping None (Some module') (Some function') (Some a) (Some kwargs') in
  match args' with
  | _ :: _ => enriched args'
  | [] =>
      let text := Py.strip text_command in
      let lower := Py.lower text in
      if (module' =? "apps")%string
         && ((function' =? "open_app")%string || (function' =? "close_app")%string)
      then match Py.split lower with
           | _ :: _ :: _ =>
               match snd (Py.split_once " " text) with
               | None => mapping
               | Some rest =>
                   let target := Py.strip rest in
                   if str_truthy target then enriched [PStr target]
                   else enriched []
               end
           | _ => enriched []
           end
      else if (module' =? "browser")%string && (function' =? "open_url")%string
      then match re_search_url env text with
           | Some url => enriched [PStr url]
           | None =>
               if Py.startswith "open " lower
               then match Py.split lower with
                    | _ :: token :: _ =>
                        enriched [PStr ("https://" ++ token ++ ".com")]
                    | _ => enriched []
                    end
               else enriched []
           end
      else if (module' =? "browser")%string && (function' =? "search_google")%string
      then if Py.startswith "search " lower
           then match snd (Py.split_once " " text) with
                | None => mapping
                | Some rest =>
                    let q := Py.strip rest in
                    enriched [PStr (if str_truthy q then q else text)]
                end
           else enriched [PStr text]
      else if (module' =? "youtube")%string
              && ((function' =? "play_video")%string
                  || (function' =? "search_and_play")%string)
      then match snd (Py.split_once " " text) with
           | Some rest => enriched [PStr (Py.strip rest)]
           | None => enriched [PStr text]
           end
      else enriched []
  end.

(** [if mapping:] on an [Optional[Dict]]. *)
Definition truthy (mapping : option Mapping) : option Mapping :=
  match mapping with
  | Some m => if dict_truthy m then Some m else None
  | None => None
  end.

(** Lines 76 to 111 of [resolve_command]: what runs once the
    threshold test has not returned. *)
Definition resolve_below_threshold (self : AdaptiveMapper)
    (text_command : string) (action_key : option string) : M Mapping :=
  (db_like_mapping <- gets (_match_existing_db_command self text_command) ;;
   match truthy db_like_mapping with
   | Some mapping => ret mapping
   | None =>
       confirmed <-
         (if optstr_truthy action_key
          then catch
                 (yes <- ask (EvConfirm (default "" action_key))
                             (confirm_callback self (default "" action_key)) ;;
                  if (yes : bool)
                  then ret (truthy (_map_action_via_registry self
                                      (default "" action_key)))
                  else ret None)
                 (fun _ => ret None)
          else ret None) ;;
       match confirmed with
       | Some mapping => ret (_enrich_mapping_with_args text_command mapping)
       | None =>
           if negb (_learner_ctor self)
           then raise (RuntimeError
                         "Learner is not available to handle unknown commands")
           else
             match Learner.__init__ env (confirm_callback self)
                     (manual_map_callback self)
                     (Some (commands_config_path self)) with
             | Raise _ => raise (RuntimeError "Adaptive learner unavailable")
             | Ok learner_instance =>
                 learn_result <- Learner.handle_unknown env learner_instance
                                   text_command ;;
                 if negb (Learner.status learn_result =? "success")%string
                 then raise (RuntimeError
                               "Failed to learn mapping for unknown command")
                 else
                   mapping <- gets (_get_db_mapping self text_command) ;;
                   match truthy mapping with
                   | None =>
                       raise (RuntimeError
                                "Mapping not found in database after learning step")
                   | Some mapping =>
                       ret (_enrich_mapping_with_args text_command mapping)
                   end
             end
       end
   end)%py.

Definition resolve_command (self : AdaptiveMapper) (text_command : string)
    : M Mapping :=
  (mapping <- gets (_get_db_mapping self text_command) ;;
   match truthy mapping with
   | Some mapping => ret (_enrich_mapping_with_args text_command mapping)
   | None =>
       let '(action_key, score) := _recognize_or_match self text_command in
       let accepted :=
         if optstr_truthy action_key && PrimFloat.leb threshold score
         then truthy (_map_action_via_registry self (default "" action_key))
         else None in
       match accepted with
       | Some mapping => ret (_enrich_mapping_with_args text_command mapping)
       | None => resolve_below_threshold self text_command action_key
       end
   end)%py.

End WithEnv.

(** The same resolver constructed with [intent_recognizer=None]. *)
Definition without_recognizer (self : AdaptiveMapper) : AdaptiveMapper :=
  {| intent_recognizer := None;
     confirm_callback := confirm_callback self;
     manual_map_callback := manual_map_callback self;
     commands_config_path := commands_config_path self;
     _registry := _registry self;
     _db := _db self;
     _learner_ctor := _learner_ctor self;
     _commands_index := _commands_index self |}.

End Mapper.

(** ** The permission gate: [backend/security/permissions.py] *)

Module Permissions.

(** [s.split(d)]. *)
Fixpoint split_all (d : ascii) (s : string) : list string :=
  match s with
  | EmptyString => [EmptyString]
  | String c r =>
      if Ascii.eqb c d then EmptyString :: split_all d r
      else match split_all d r with
           | h :: t => String c h :: t
           | [] => [String c EmptyString]
           end
  end.

(** [parts[-2:]]. *)
Fixpoint last_two (parts : list string) : list string :=
  match parts with
  | _ :: ((_ :: _ :: _) as rest) => last_two rest
  | _ => parts
  end.

Definition SAFE_READ_ONLY_FUNCTIONS : list string :=
  [ "browser.open_url"; "browser.search_google";
    "browser.get_wikipedia_summary"; "youtube.play_video";
    "youtube.search_and_play"; "apps.list_running_apps" ].

Record Policy : Type := mkPolicy {
  allow_all : bool;
  allowed_categories : list string;
  blocked_functions : list string
}.

Definition ROLE_POLICIES : list (string * Policy) :=
  [ ("admin", mkPolicy true [] []);
    ("standard_user",
     mkPolicy false ["browser"; "youtube"; "apps"; "email"; "whatsapp"]
              ["system.shutdown"; "system.restart"]);
    ("guest", mkPolicy false [] []) ].

Definition member (s : string) (xs : list string) : bool :=
  existsb (String.eqb s) xs.

Definition policy_of (role : string) : option Policy :=
  option_map snd (List.find (fun p => (fst p =? role)%string) ROLE_POLICIES).

Section Gate.

(** The role [data/users.json] holds for a user id, if it holds one. *)
Variable users : string -> option string.

(** Whether [loguru] is installed; [backend/services/logger.py] falls
    back to the standard [logging] module without it. *)
Variable loguru : bool.

(** [project_logger.security_event]: [get_logger().log("SECURITY_EVENT",
    ...)]. Loguru knows the level by its name; the standard logger takes
    an int for a level and raises. *)
Definition security_event : outcome unit :=
  if loguru then Ok tt
  else Raise (Exn "TypeError" "level must be an integer").

Definition _get_user_role (user_id : string) : string :=
  let role := match users user_id with
              | Some r => if str_truthy r then r else "guest"
              | None => "guest"
              end in
  if present (policy_of role) then role else "guest".

Definition _function_path_from_command (command : string) : string :=
  match Py.split_once ":" command with
  | (module, Some func) => module ++ "." ++ func
  | (_, None) => command
  end.

Definition _category_from_function (function_path : string) : string :=
  let parts := split_all "." function_path in
  let fix after (ps : list string) : option string :=
    match ps with
    | [] => None
    | p :: rest =>
        if (p =? "automation")%string then List.head rest else after rest
    end in
  match after parts with
  | Some category => category
  | None => List.hd "" parts
  end.

Definition check_permission (user_id command : string) : outcome bool :=
  let role := _get_user_role user_id in
  let policy := default (mkPolicy false [] []) (policy_of role) in
  let function_path := _function_path_from_command command in
  let simple_fn :=
    if Py.contains "." function_path
    then String.concat "." (last_two (split_all "." function_path))
    else function_path in
  let denied := obind security_event (fun _ => Ok false) in
  if allow_all policy then Ok true
  else if (role =? "guest")%string
  then if member simple_fn SAFE_READ_ONLY_FUNCTIONS then Ok true else denied
  else
    let category := _category_from_function function_path in
    if member simple_fn (blocked_functions policy) then denied
    else if member category (allowed_categories policy) then Ok true
    else denied.

Definition enforce_permission (user_id command : string) : outcome unit :=
  obind (check_permission user_id command)
    (fun allowed =>
       if (allowed : bool) then Ok tt
       else Raise (Exn "PermissionError" "Unauthorized command for this role")).

End Gate.

End Permissions.

(** ** The command handler: [backend/core/command_handler.py] *)

Module CommandHandler.

(** What a response carries under ["function_executed"]: [None], a dotted
    path, or, from [undo] and [redo], the dict the history engine
    returned. *)
Inductive Executed : Type :=
| ExNone
| ExPath (path : string)
| ExDict (r : UndoRedo.Result).

Record Response : Type := mkResponse {
  status : string;
  message : string;
  function_executed : Executed;
  result : option pyval
}.

Record CommandHandler : Type := mkHandler {
  (** The mapper module's [resolve_command], when the module imports. *)
  _mapper : option (string -> M Mapping);
  (** Whether the undo/redo module imports. *)
  _undo_redo : bool;
  (** The permission module's [enforce_permission], when it imports. *)
  _permissions : option (string -> string -> outcome unit);
  user_id : string
}.

Section Handler.

Variable History : Type.
Variable log_history : string -> string -> History -> outcome History.
Variable import_module : string -> option (string -> option UndoRedo.callable).

(** The resolver's state, the history engine, and the automation
    functions [execute] has called, oldest first. *)
Record World : Type := mkWorld {
  resolver : State;
  engine : UndoRedo.World History;
  executed : list UndoRedo.Call
}.

Definition error (message : string) : Response :=
  mkResponse "error" message ExNone None.

Definition _resolve_command (self : CommandHandler) (text_command : string)
    : M Mapping :=
  match _mapper self with
  | None => raise (RuntimeError "Mapper module not available")
  | Some resolve_command => resolve_command text_command
  end.

Definition _import_automation_module (module_name : string)
    : outcome (string -> option UndoRedo.callable) :=
  match import_module ("backend.automation." ++ module_name) with
  | Some m => Ok m
  | None =>
      match import_module module_name with
      | Some m => Ok m
      | None => Raise (Exn "ModuleNotFoundError"
                           ("No module named '" ++ module_name ++ "'"))
      end
  end.

Definition _record_action (self : CommandHandler)
    (module_name function_name : string) (args : list pyval)
    (kwargs : pykwargs) (e : UndoRedo.World History) : UndoRedo.World History :=
  if negb (_undo_redo self) then e
  else UndoRedo.record_action History log_history
         (module_name ++ "." ++ function_name) (Some args) (Some kwargs)
         false None e.

(** The permission block of [execute]: the gate is consulted when the
    permission module is there. *)
Definition enforce_if_available (self : CommandHandler)
    (module_name function_name : string) : outcome unit :=
  match _permissions self with
  | Some enforce_permission =>
      enforce_permission (user_id self) (module_name ++ "." ++ function_name)
  | None => Ok tt
  end.

Definition execute (self : CommandHandler) (text_command : string)
    (w : World) : Response * World :=
  match _resolve_command self text_command (resolver w) with
  | (Raise (Exn _ msg), st) =>
      (error ("Failed to resolve command: " ++ msg),
       mkWorld st (engine w) (executed w))
  | (Ok mapping, st) =>
      let w1 := mkWorld st (engine w) (executed w) in
      let args := default [] (args mapping) in
      let kwargs := default [] (kwargs mapping) in
      if negb (optstr_truthy (module mapping))
         || negb (optstr_truthy (function mapping))
      then (error "Mapping must contain 'module' and 'function'", w1)
      else
        let module_name := default "" (module mapping) in
        let function_name := default "" (function mapping) in
        match _import_automation_module module_name with
        | Raise (Exn _ msg) => (error msg, w1)
        | Ok automation_module =>
            match automation_module function_name with
            | None =>
                (error ("Function '" ++ function_name
                        ++ "' not found in module '" ++ module_name ++ "'"),
                 w1)
            | Some target_function =>
                match enforce_if_available self module_name function_name with
                | Raise _ => (error "Permission denied", w1)
                | Ok _ =>
                    let called : list UndoRedo.Call :=
                      (executed w1
                       ++ [UndoRedo.mkCall (module_name ++ "." ++ function_name)
                             args kwargs])%list in
                    match target_function args kwargs with
                    | Raise (Exn _ msg) =>
                        (error msg, mkWorld st (engine w) called)
                    | Ok result =>
                        (mkResponse "success" "Command executed successfully"
                           (ExPath (module_name ++ "." ++ function_name))
                           (Some result),
                         mkWorld st
                           (_record_action self module_name function_name
                              args kwargs (engine w))
                           called)
                    end
                end
            end
        end
  end.

(** [execute] has reached its permission block: the text resolved to
    [mapping], leaving the resolver in [st], and the mapping names the
    function [target] of an automation module. *)
Definition finds_target (self : CommandHandler) (text_command : string)
    (w : World) (mapping : Mapping) (st : State)
    (module_name function_name : string) (target : UndoRedo.callable)
    : Prop :=
  _resolve_command self text_command (resolver w) = (Ok mapping, st)
  /\ module mapping = Some module_name /\ str_truthy module_name = true
  /\ function mapping = Some function_name /\ str_truthy function_name = true
  /\ exists automation_module,
       _import_automation_module module_name = Ok automation_module
       /\ automation_module function_name = Some target.

Definition undo (self : CommandHandler) (w : World) : Response * World :=
  if negb (_undo_redo self)
  then (error "Undo/redo service not available", w)
  else
    let '(function_path, e) :=
      UndoRedo.undo_last History log_history import_module (engine w) in
    (mkResponse "success" "Undo executed" (ExDict function_path) None,
     mkWorld (resolver w) e (executed w)).

Definition redo (self : CommandHandler) (w : World) : Response * World :=
  if negb (_undo_redo self)
  then (error "Undo/redo service not available", w)
  else
    let '(function_path, e) :=
      UndoRedo.redo_last History log_history import_module (engine w) in
    (mkResponse "success" "Redo executed" (ExDict function_path) None,
     mkWorld (resolver w) e (executed w)).

(** The sessions of one handler: from a fresh history engine, by
    [execute], [undo] and [redo], with the resolver's store changing in
    between as it may. *)
Inductive reachable (self : CommandHandler) : World -> Prop :=
| reach_fresh st h :
    reachable self (mkWorld st (UndoRedo.__init__ h) [])
| reach_execute text_command w :
    reachable self w -> reachable self (snd (execute self text_command w))
| reach_undo w : reachable self w -> reachable self (snd (undo self w))
| reach_redo w : reachable self w -> reachable self (snd (redo self w))
| reach_resolver st w :
    reachable self w -> reachable self (mkWorld st (engine w) (executed w)).

End Handler.

Arguments resolver {History} w.
Arguments engine {History} w.
Arguments executed {History} w.
Arguments mkWorld {History}.

End CommandHandler.

(** ** Short- and long-term memory: [backend/core/memory.py] *)

Module Memory.

Section Store.

(** A record of one command execution: a dict. *)
Variable Item : Type.

(** [json.dump] of a record followed by [json.load]: the dict the file
    then holds for it, or [None] when [json.dump] raises. *)
Variable json_round_trip : Item -> option Item.

(** [record.get("function")], a [str] in the records the class documents,
    [record.get("args", [])] and [record.get("kwargs", {})]. *)
Variable get_function : Item -> string.
Variable get_args : Item -> list pyval.
Variable get_kwargs : Item -> pykwargs.

(** The history table the undo/redo engine logs to. *)
Variable History : Type.
Variable log_history : string -> string -> History -> outcome History.

(** An element of the list in the long-term file: a dict, or anything
    else JSON can hold. *)
Inductive Json : Type :=
| JDict (item : Item)
| JOther (v : pyval).

(** The file at [store_path] as [os.path.exists], [open] and [json.load]
    find it: absent, a JSON list, some other JSON value, or text that
    [json.load] raises on. The directory of the file exists once
    [__init__] has run, and the file can be opened. *)
Inductive File : Type :=
| Missing
| Items (data : list Json)
| NotAList
| Unreadable.

Record Memory : Type := mkMemory {
  max_short_term : nat;
  (** The deque, oldest record first. *)
  short_term : list Item;
  (** Whether the undo/redo module imports. *)
  _undo_redo : bool;
  file : File;
  (** The [_MANAGER] of the undo/redo module. *)
  engine : UndoRedo.World History
}.

(** [deque.append] on a deque with [maxlen]: the new record goes to the
    right, and a deque that is now too long loses its leftmost one. *)
Definition append (maxlen : nat) (d : list Item) (x : Item) : list Item :=
  let d' := (d ++ [x])%list in
  if (maxlen <? length d')%nat then tl d' else d'.

(** [data[-n:]] for [n >= 0]; [data[-0:]] is all of [data]. *)
Definition last_items {A} (n : nat) (data : list A) : list A :=
  if (n =? 0)%nat then data else skipn (length data - n) data.

Definition _load_long_term (max_short_term : nat) (f : File)
    (d : list Item) : list Item :=
  match f with
  | Items data =>
      fold_left
        (fun d item =>
           match item with
           | JDict item => append max_short_term d item
           | JOther _ => d
           end)
        (last_items max_short_term data) d
  | Missing | NotAList | Unreadable => d
  end.

(** [Memory(max_short_term, store_path)], with the file at [store_path]
    and the engine as they are; [deque(maxlen=...)] takes a length that
    fits a signed 64-bit integer and refuses a negative one. *)
Definition __init__ (max_short_term : Z) (undo_redo : bool) (f : File)
    (e : UndoRedo.World History) : outcome Memory :=
  if (max_short_term <? - 2 ^ 63) || (2 ^ 63 <=? max_short_term)
  then Raise (Exn "OverflowError"
                  "Python int too large to convert to C ssize_t")
  else if max_short_term <? 0
  then Raise (ValueError "maxlen must be non-negative")
  else
    Ok {| max_short_term := Z.to_nat max_short_term;
          short_term := _load_long_term (Z.to_nat max_short_term) f [];
          _undo_redo := undo_redo;
          file := f;
          engine := e |}.

(** The list both long-term helpers start from. *)
Definition loaded_history (f : File) : list Json :=
  match f with
  | Items loaded => loaded
  | Missing | NotAList | Unreadable => []
  end.

(** A [json.load] that raises ends the helper before the file is opened
    for writing; a [json.dump] that raises leaves the file, already
    truncated, with the text written so far. *)
Definition _append_long_term (record : Item) (f : File) : File :=
  match f with
  | Unreadable => Unreadable
  | Missing | Items _ | NotAList =>
      match json_round_trip record with
      | Some written => Items (loaded_history f ++ [JDict written])
      | None => Unreadable
      end
  end.

Definition _remove_from_long_term (count : nat) (f : File) : File :=
  match f with
  | Unreadable => Unreadable
  | Missing | Items _ | NotAList =>
      let history := loaded_history f in
      Items (if (0 <? count)%nat && (0 <? length history)%nat
             then firstn (length history - count) history
             else history)
  end.

Definition _record_undo_redo (undo_redo : bool) (record : Item)
    (e : UndoRedo.World History) : UndoRedo.World History :=
  if negb undo_redo then e
  else UndoRedo.record_action History log_history (get_function record)
         (Some (get_args record)) (Some (get_kwargs record)) false None e.

Definition remember (record : Item) (m : Memory) : Memory :=
  {| max_short_term := max_short_term m;
     short_term := append (max_short_term m) (short_term m) record;
     _undo_redo := _undo_redo m;
     file := _append_long_term record (file m);
     engine := _record_undo_redo (_undo_redo m) record (engine m) |}.

Definition recall (limit : Z) (m : Memory) : list Item :=
  if limit <=? 0 then []
  else rev (last_items (Z.to_nat limit) (short_term m)).

(** The loop of [forget]: [n] times [removed.append(short_term.pop())].
    [n] is at most the length of the deque, so [pop] finds a record each
    time. *)
Fixpoint pop_each (n : nat) (d removed : list Item)
    : list Item * list Item :=
  match n with
  | O => (d, removed)
  | S n' =>
      match UndoRedo.pop d with
      | Some (d', x) => pop_each n' d' (removed ++ [x])%list
      | None => (d, removed)
      end
  end.

Definition forget (count : Z) (m : Memory) : list Item * Memory :=
  if count <=? 0 then ([], m)
  else
    let '(d, removed) :=
      pop_each (Nat.min (Z.to_nat count) (length (short_term m)))
               (short_term m) [] in
    (removed,
     {| max_short_term := max_short_term m;
        short_term := d;
        _undo_redo := _undo_redo m;
        file := match removed with
                | [] => file m
                | _ :: _ => _remove_from_long_term (length removed) (file m)
                end;
        engine := engine m |}).

(** The dicts of a list read from the file, in order. *)
Definition dicts (data : list Json) : list Item :=
  flat_map (fun item => match item with
                        | JDict item => [item]
                        | JOther _ => []
                        end) data.

(** The memories a program can hold: a new one, then [remember] and
    [forget] in any order. *)
Inductive reachable : Memory -> Prop :=
| reach_new n undo_redo f e m :
    __init__ n undo_redo f e = Ok m -> reachable m
| reach_remember record m : reachable m -> reachable (remember record m)
| reach_forget count m : reachable m -> reachable (snd (forget count m)).

End Store.

Arguments JDict {Item} item.
Arguments JOther {Item} v.
Arguments Missing {Item}.
Arguments Items {Item} data.
Arguments NotAList {Item}.
Arguments Unreadable {Item}.
Arguments max_short_term {Item History} m.
Arguments short_term {Item History} m.
Arguments _undo_redo {Item History} m.
Arguments file {Item History} m.
Arguments engine {Item History} m.
Arguments mkMemory {Item History}.
Arguments append {Item} maxlen d x.
Arguments _load_long_term {Item} max_short_term f d.
Arguments __init__ {Item History} max_short_term undo_redo f e.
Arguments loaded_history {Item} f.
Arguments _remove_from_long_term {Item} count f.
Arguments dicts {Item} data.
Arguments recall {Item History} limit m.
Arguments pop_each {Item} n d removed.
Arguments forget {Item History} count m.

End Memory.

(** ** Concrete stores, environments and sessions *)

Module Examples.

(** A store that has learned one command. *)
Definition chrome_db : Database.DB :=
  Database.upsert_mapping "open chrome" "apps" "open_app" None None
    Database._init_db.

(** The history table as [Database] keeps it, at a fixed clock reading. *)
Definition log_history (command action : string) (d : Database.DB)
    : outcome Database.DB :=
  Ok (Database.log_history "2024-01-01T00:00:00" command action d).

(** [fuzz.token_set_ratio] on the pairs the examples compare; a pair that
    is not listed scores 0 here. *)
Definition ratios : list (string * string * Z) :=
  [ ("photoshop", "apps:open_app", 36); ("photoshop", "photos", 80);
    ("show photoshop", "apps:open_app", 30);
    ("show photoshop", "open photoshop", 79);
    ("open chrome now", "apps:open_app", 47);
    ("open chrome now", "launch app", 16);
    ("open chrome now", "open chrome", 100);
    ("frobnicate", "apps:open_app", 17); ("frobnicate", "launch app", 20);
    ("open chrome", "apps:open_app", 53); ("open chrome", "launch app", 19);
    ("open chrome", "apps:close_app", 24);
    ("open chrome", "open chrome", 100) ].

Definition ratio (a b : string) : Z :=
  match List.find (fun e => (fst (fst e) =? a)%string && (snd (fst e) =? b)%string)
                  ratios with
  | Some e => snd e
  | None => 0
  end.

(** The catalog discovery builds from a module [apps] with two public
    functions. *)
Definition registry : gmap string Registry.Entry :=
  Registry.register "backend.automation.apps" "open_app"
    (Registry.register "backend.automation.apps" "close_app" ∅).

(** An installation whose [commands.json] holds [index]. *)
Definition env (index : list (string * list string)) : Env :=
  {| token_set_ratio := ratio;
     re_search_url := fun _ => None;
     load_commands_index := fun _ => index;
     CommandRegistry := Some registry;
     database_module := true;
     console_manual_map := fun _ _ => Learner.empty_mapping;
     default_commands_path := "config/commands.json" |}.

(** A resolver with no intent recognizer, whose user answers no to every
    confirmation and maps nothing by hand. *)
Definition mapper (index : list (string * list string)) : Mapper.AdaptiveMapper :=
  Mapper.__init__ (env index) None (fun _ => Ok false)
    (fun _ _ => Ok Learner.empty_mapping) None true.

Definition index_photos : list (string * list string) :=
  [("apps:open_app", ["photos"])].
Definition index_photoshop : list (string * list string) :=
  [("apps:open_app", ["open photoshop"])].
Definition index_launch : list (string * list string) :=
  [("apps:open_app", ["launch app"])].


Definition fresh : State := mkState Database._init_db [].
Definition learned_chrome : State := mkState chrome_db [].

(** A store that maps one command to an action that raises. *)
Definition learned_close : State :=
  mkState (Database.upsert_mapping "close chrome" "apps" "close_app" None None
             chrome_db) [].

(** What [importlib] finds: a module [apps] whose [open_app] returns
    [None] and whose [close_app] raises. *)
Definition import_module (module_name : string)
    : option (string -> option UndoRedo.callable) :=
  if (module_name =? "apps")%string
     || (module_name =? "backend.automation.apps")%string
  then Some (fun name =>
               if (name =? "open_app")%string then Some (fun _ _ => Ok PNone)
               else if (name =? "close_app")%string
               then Some (fun _ _ => Raise (Exn "OSError" "no such process"))
               else None)
  else None.

(** An action with no inverse, as [CommandHandler] records every action. *)
Definition open_chrome : UndoRedo.ActionRecord :=
  UndoRedo.mkRecord "apps.open_app" [PStr "chrome"] [] false None.

(** A fresh history engine that has recorded [open_chrome]. *)
Definition after_open_chrome : UndoRedo.World Database.DB :=
  UndoRedo.record Database.DB log_history open_chrome
    (UndoRedo.__init__ Database._init_db).

(** An action recorded with an inverse that raises when it is called. *)
Definition open_chrome_reversible : UndoRedo.ActionRecord :=
  UndoRedo.mkRecord "apps.open_app" [PStr "chrome"] [] true
    (Some "apps.close_app").

(** What [importlib] finds when the automation modules import only as
    members of the package [backend.automation]. *)
Definition packaged_import (module_name : string)
    : option (string -> option UndoRedo.callable) :=
  if (module_name =? "backend.automation.apps")%string
  then import_module module_name else None.

(** [data/users.json]: one administrator; everybody else is a guest. *)
Definition users (user_id : string) : option string :=
  if (user_id =? "root")%string then Some "admin" else None.

(** A command handler for [user_id], with every module importable. *)
Definition handler (user_id : string) : CommandHandler.CommandHandler :=
  {| CommandHandler._mapper :=
       Some (Mapper.resolve_command (env index_launch) (mapper index_launch));
     CommandHandler._undo_redo := true;
     CommandHandler._permissions :=
       Some (Permissions.enforce_permission users true);
     CommandHandler.user_id := user_id |}.

(** A session in which nothing has been executed yet. *)
Definition session : CommandHandler.World Database.DB :=
  CommandHandler.mkWorld learned_close (UndoRedo.__init__ Database._init_db) [].

(** A memory record with the keys ["command"], ["function"] and
    ["result"]; [record_result] is [None] for a result [json] cannot
    encode, such as a process handle. *)
Record MemoryRecord : Type := mkMemoryRecord {
  record_command : string;
  record_function : string;
  record_result : option pyval
}.

Definition json_round_trip (r : MemoryRecord) : option MemoryRecord :=
  match record_result r with
  | Some _ => Some r
  | None => None
  end.

Definition opened_chrome : MemoryRecord :=
  mkMemoryRecord "open chrome" "apps.open_app" (Some (PStr "ok")).

Definition opened_mail : MemoryRecord :=
  mkMemoryRecord "open mail" "apps.open_app" (Some (PStr "ok")).

Definition started_player : MemoryRecord :=
  mkMemoryRecord "play music" "apps.start_player" None.

(** A new memory of two records over a file that holds one. *)
Definition memory : Memory.Memory MemoryRecord Database.DB :=
  {| Memory.max_short_term := 2;
     Memory.short_term := [opened_mail];
     Memory._undo_redo := true;
     Memory.file := Memory.Items [Memory.JDict opened_mail];
     Memory.engine := UndoRedo.__init__ chrome_db |}.

(** A [data/users.json] with one user of each role. *)
Definition office_users (user_id : string) : option string :=
  if (user_id =? "root")%string then Some "admin"
  else if (user_id =? "sam")%string then Some "standard_user"
  else if (user_id =? "visitor")%string then Some "guest"
  else None.

(** [backend.automation] as discovery finds it when [apps] and [browser]
    import and [email] does not: the functions of each module, in the
    order of [inspect.getmembers]. *)
Definition package : list Registry.ModuleInfo :=
  [ Registry.mkModuleInfo "backend.automation.apps"
      (Some ["_err"; "_get_logger"; "_ok"; "_platform";
             "_resolve_app_command"; "close_app"; "list_running_apps";
             "open_app"]);
    Registry.mkModuleInfo "backend.automation.browser"
      (Some ["_err"; "_get_logger"; "_ok"; "get_wikipedia_summary";
             "open_url"; "search_google"]);
    Registry.mkModuleInfo "backend.automation.email" None ].

End Examples.

(** * Properties *)

(** ** The mapping store *)

Section DatabaseFacts.

Import Database.

Lemma has_text_refl id c a : has_text c (mkRow id c a) = true.
Proof. unfold has_text; simpl. apply String.eqb_refl. Qed.

Lemma filter_out_then_find c r rows :
  has_text c r = true ->
  List.find (has_text c)
    (List.filter (fun x => negb (has_text c x)) rows ++ [r]) = Some r.
Proof.
  intros Hr. induction rows as [|x rows IH]; simpl.
  - now rewrite Hr.
  - destruct (has_text c x) eqn:Hx; simpl; [exact IH|].
    now rewrite Hx.
Qed.

Lemma filter_out_then_filter c rows :
  List.filter (has_text c)
    (List.filter (fun x => negb (has_text c x)) rows) = [].
Proof.
  induction rows as [|x rows IH]; simpl; [reflexivity|].
  destruct (has_text c x) eqn:Hx; simpl; [exact IH|].
  now rewrite Hx.
Qed.

Lemma rows_for_add_mapping c a d :
  rows_for c (add_mapping c a d) = [mkRow (mappings_seq d + 1) c a].
Proof.
  unfold rows_for, add_mapping; simpl.
  rewrite List.filter_app, filter_out_then_filter; simpl.
  now rewrite has_text_refl.
Qed.

Lemma get_mapping_add_mapping c a d :
  get_mapping c (add_mapping c a d) =
  match Py.split_once ":" a with
  | (module, Some function) =>
      Some (mkMapping (Some a) (Some module) (Some function) (Some []) (Some []))
  | (_, None) => Some (mkMapping (Some a) None None None None)
  end.
Proof.
  unfold get_mapping, add_mapping; simpl.
  rewrite filter_out_then_find by apply has_text_refl.
  reflexivity.
Qed.

Lemma split_once_join d m f :
  Py.contains d m = false ->
  Py.split_once d (m ++ String d f) = (m, Some f).
Proof.
  unfold Py.contains. induction m as [|c m IH]; simpl; intros H.
  - now rewrite Ascii.eqb_refl.
  - destruct (Ascii.eqb c d) eqn:Hc; simpl in H; [discriminate|].
    destruct (Py.split_once d m) as [a b] eqn:Hs; simpl in *.
    now rewrite (IH H).
Qed.

Lemma texts_filter_subset p rows c :
  In c (List.map row_command_text (List.filter p rows)) ->
  In c (List.map row_command_text rows).
Proof.
  rewrite !in_map_iff. intros (r & Hc & Hin).
  apply filter_In in Hin. exists r. tauto.
Qed.

Lemma NoDup_texts_filter p rows :
  List.NoDup (List.map row_command_text rows) ->
  List.NoDup (List.map row_command_text (List.filter p rows)).
Proof.
  induction rows as [|x rows IH]; simpl; intros H; [constructor|].
  inversion H as [|? ? Hnotin Hrest]; subst.
  destruct (p x); simpl; [|now apply IH].
  constructor; [|now apply IH].
  intros Hin. apply Hnotin. eapply texts_filter_subset; eauto.
Qed.

Lemma text_filtered_out c rows :
  ~ In c (List.map row_command_text
            (List.filter (fun x => negb (has_text c x)) rows)).
Proof.
  rewrite in_map_iff. intros (r & Hc & Hin).
  apply filter_In in Hin. destruct Hin as [_ Hneg].
  unfold has_text in Hneg. rewrite Hc, String.eqb_refl in Hneg. discriminate.
Qed.

Lemma reachable_unique d : reachable d -> List.NoDup (command_texts d).
Proof.
  unfold command_texts. induction 1; simpl.
  - constructor.
  - rewrite List.map_app; simpl.
    apply List.NoDup_app;
      [now apply NoDup_texts_filter | repeat constructor; intros [] |].
    intros x Hx [Heq|[]]; subst. eapply text_filtered_out; eauto.
  - assumption.
  - now apply NoDup_texts_filter.
Qed.

End DatabaseFacts.

(** C8. The mapping store never holds two rows for one command text: every
    store the operations can produce has pairwise distinct command texts;
    and after the same text is added (or upserted) twice, exactly one row
    holds that text, and it carries the action of the second call. *)
Theorem one_row_per_command_text :
  (forall d, Database.reachable d -> List.NoDup (Database.command_texts d))
  /\ (forall d c a1 a2,
        Database.rows_for c (Database.add_mapping c a2 (Database.add_mapping c a1 d))
        = [Database.mkRow (Database.mappings_seq d + 2) c a2])
  /\ (forall d c m1 f1 args1 kwargs1 m2 f2 args2 kwargs2,
        let twice :=
          Database.upsert_mapping c m2 f2 args2 kwargs2
            (Database.upsert_mapping c m1 f1 args1 kwargs1 d) in
        length (Database.rows_for c twice) = 1%nat
        /\ Database.get_mapping c twice
           = Database.get_mapping c (Database.upsert_mapping c m2 f2 args2 kwargs2 d)).
Proof.
  split; [exact reachable_unique|]. split.
  - intros d c a1 a2. rewrite rows_for_add_mapping. simpl.
    f_equal. f_equal. lia.
  - intros d c m1 f1 args1 kwargs1 m2 f2 args2 kwargs2 twice. subst twice.
    unfold Database.upsert_mapping. split.
    + now rewrite rows_for_add_mapping.
    + now rewrite !get_mapping_add_mapping.
Qed.

Lemma one_row_per_command_text_witness :
  List.NoDup (Database.command_texts Examples.chrome_db).
Proof.
  apply (proj1 one_row_per_command_text Examples.chrome_db).
  unfold Examples.chrome_db, Database.upsert_mapping.
  apply Database.reach_add, Database.reach_init.
Defined.

(** C7, as the code has it. For a command text upserted with a non-empty
    module that contains no colon and a non-empty function, a following get
    for that text returns a mapping with that module and that function; its
    args and kwargs are empty whatever templates were passed, because the
    store keeps only the action name [module:function]. *)
Theorem upsert_then_get d command module function args kwargs :
  str_truthy module = true ->
  str_truthy function = true ->
  Py.contains ":" module = false ->
  Database.get_mapping command
    (Database.upsert_mapping command module function args kwargs d)
  = Some (mkMapping (Some (module ++ ":" ++ function)) (Some module)
                    (Some function) (Some []) (Some [])).
Proof.
  intros Hm Hf Hcolon. unfold Database.upsert_mapping.
  rewrite Hm, Hf; simpl. rewrite get_mapping_add_mapping.
  change (String.append ":" function) with (String ":" function).
  now rewrite (split_once_join ":" module function Hcolon).
Qed.

Lemma upsert_then_get_witness :
  Database.get_mapping "open chrome"
    (Database.upsert_mapping "open chrome" "apps" "open_app"
       (Some [PStr "chrome"]) None Database._init_db)
  = Some (mkMapping (Some "apps:open_app") (Some "apps") (Some "open_app")
                    (Some []) (Some [])).
Proof.
  apply (upsert_then_get Database._init_db "open chrome" "apps" "open_app");
    reflexivity.
Defined.

(** C7 as stated fails: the templates passed to upsert do not come back,
    a module with a colon comes back cut at the colon, and with an empty
    function the mapping has no module or function at all. *)
Lemma upsert_then_get_loses_templates :
  (exists r,
      Database.get_mapping "open chrome"
        (Database.upsert_mapping "open chrome" "apps" "open_app"
           (Some [PStr "chrome"]) (Some [("wait", PBool true)])
           Database._init_db) = Some r
      /\ module r = Some "apps" /\ function r = Some "open_app"
      /\ args r = Some [] /\ args r <> Some [PStr "chrome"]
      /\ kwargs r = Some [] /\ kwargs r <> Some [("wait", PBool true)])
  /\ (exists r,
        Database.get_mapping "go"
          (Database.upsert_mapping "go" "a:b" "c" None None Database._init_db)
        = Some r
        /\ module r = Some "a" /\ module r <> Some "a:b"
        /\ function r = Some "b:c")
  /\ (exists r,
        Database.get_mapping "go"
          (Database.upsert_mapping "go" "apps" "" None None Database._init_db)
        = Some r
        /\ module r = None /\ function r = None).
Proof.
  repeat split; eexists; (split; [reflexivity|]); simpl;
    repeat split; try reflexivity; discriminate.
Qed.

(** ** The history engine *)

Section UndoRedoFacts.

Import UndoRedo.

Context {History : Type}.
Variable log_history : string -> string -> History -> outcome History.
Variable import_module : string -> option (string -> option callable).

Lemma pop_snoc {A} (stack : list A) (x : A) : pop (stack ++ [x]) = Some (stack, x).
Proof.
  induction stack as [|y stack IH]; simpl; [reflexivity|].
  now rewrite IH.
Qed.

Lemma record_spec (a : ActionRecord) (w : World History) :
  _executed_stack (record History log_history a w)
  = (_executed_stack w ++ [a])%list
  /\ _undone_stack (record History log_history a w) = []
  /\ calls (record History log_history a w) = calls w.
Proof. destruct a; repeat split. Qed.

Lemma invoke_stacks path done r missing (w : World History) :
  let out := invoke History import_module path done r missing w in
  _executed_stack (snd out) = _executed_stack w
  /\ _undone_stack (snd out) = _undone_stack w.
Proof.
  unfold invoke. destruct (_import_function import_module path) as [fn|];
    [|now split].
  destruct (fn (args r) (kwargs r)) as [v|[k m]]; now split.
Qed.

End UndoRedoFacts.

(** C3. Every call to [record_action] pushes the new record onto the
    executed stack and empties the undone stack; so after record(A),
    record(B), undo_last(), record(C) the undone stack is empty (B, which
    the undo had moved there, is dropped) and redo_last() answers with the
    soft failure [Nothing to redo] and changes nothing. *)
Theorem record_action_clears_redo_history
    (History : Type)
    (log_history : string -> string -> History -> outcome History)
    (import_module : string -> option (string -> option UndoRedo.callable)) :
  (forall function_path args kwargs reversible undo_function_path
          (w : UndoRedo.World History),
      let w' := UndoRedo.record_action History log_history function_path args
                  kwargs reversible undo_function_path w in
      UndoRedo._executed_stack w'
      = (UndoRedo._executed_stack w
         ++ [UndoRedo.mkRecord function_path (default [] args) (default [] kwargs)
               reversible undo_function_path])%list
      /\ UndoRedo._undone_stack w' = [])
  /\ (forall (A B C : UndoRedo.ActionRecord) (w : UndoRedo.World History),
        let record := UndoRedo.record History log_history in
        let undone := UndoRedo.undo_last History log_history import_module
                        (record B (record A w)) in
        let w' := record C (snd undone) in
        UndoRedo._undone_stack (snd undone) = [B]
        /\ UndoRedo._executed_stack w'
           = (UndoRedo._executed_stack w ++ [A; C])%list
        /\ UndoRedo._undone_stack w' = []
        /\ UndoRedo.redo_last History log_history import_module w'
           = (UndoRedo.mkResult "error" "Nothing to redo" None, w')).
Proof.
  split; [intros; now split|].
  intros A B C w record undone w'.
  assert (Hu : UndoRedo._undone_stack (snd undone) = [B]
               /\ UndoRedo._executed_stack (snd undone)
                  = (UndoRedo._executed_stack w ++ [A])%list).
  { subst undone record. unfold UndoRedo.undo_last.
    destruct (record_spec log_history B
                (UndoRedo.record History log_history A w)) as (He & Hd & _).
    destruct (record_spec log_history A w) as (He' & _ & _).
    rewrite He, pop_snoc, Hd, He'.
    destruct (negb _ || negb _); [now split|].
    match goal with
    | |- context [UndoRedo.invoke ?H ?i ?p ?d ?r ?m ?x] =>
        destruct (invoke_stacks i p d r m x) as [E1 E2]
    end.
    now rewrite E1, E2. }
  destruct Hu as [Hu He].
  destruct (record_spec log_history C (snd undone)) as (He' & Hd' & _).
  subst w'. fold record in He', Hd'.
  split; [exact Hu|]. split; [|split].
  - rewrite He', He, <- List.app_assoc. reflexivity.
  - exact Hd'.
  - unfold UndoRedo.redo_last. now rewrite Hd'.
Qed.




(** ** The command handler *)

(** C10. With the undo/redo module available, [CommandHandler.undo] and
    [CommandHandler.redo] always answer with status [success]; the dict the
    history engine returned, soft errors such as [Nothing to undo] and
    [Nothing to redo] included, sits under [function_executed] and is not
    turned into a failure. *)
Theorem handler_undo_redo_report_success
    (History : Type)
    (log_history : string -> string -> History -> outcome History)
    (import_module : string -> option (string -> option UndoRedo.callable))
    (self : CommandHandler.CommandHandler) (w : CommandHandler.World History) :
  CommandHandler._undo_redo self = true ->
  let undone := UndoRedo.undo_last History log_history import_module
                  (CommandHandler.engine w) in
  let redone := UndoRedo.redo_last History log_history import_module
                  (CommandHandler.engine w) in
  CommandHandler.undo History log_history import_module self w
  = (CommandHandler.mkResponse "success" "Undo executed"
       (CommandHandler.ExDict (fst undone)) None,
     CommandHandler.mkWorld (CommandHandler.resolver w) (snd undone)
       (CommandHandler.executed w))
  /\ CommandHandler.redo History log_history import_module self w
     = (CommandHandler.mkResponse "success" "Redo executed"
          (CommandHandler.ExDict (fst redone)) None,
        CommandHandler.mkWorld (CommandHandler.resolver w) (snd redone)
          (CommandHandler.executed w))
  /\ (UndoRedo._executed_stack (CommandHandler.engine w) = [] ->
      fst undone = UndoRedo.mkResult "error" "Nothing to undo" None)
  /\ (UndoRedo._undone_stack (CommandHandler.engine w) = [] ->
      fst redone = UndoRedo.mkResult "error" "Nothing to redo" None).
Proof.
  intros Havail undone redone.
  unfold CommandHandler.undo, CommandHandler.redo. rewrite Havail; simpl.
  fold undone redone.
  split; [now destruct undone|]. split; [now destruct redone|].
  subst undone redone. unfold UndoRedo.undo_last, UndoRedo.redo_last.
  split; intros ->; reflexivity.
Qed.

Lemma handler_undo_redo_report_success_witness :
  fst (CommandHandler.undo Database.DB Examples.log_history
         Examples.import_module (Examples.handler "root") Examples.session)
  = CommandHandler.mkResponse "success" "Undo executed"
      (CommandHandler.ExDict (UndoRedo.mkResult "error" "Nothing to undo" None))
      None
  /\ fst (CommandHandler.redo Database.DB Examples.log_history
            Examples.import_module (Examples.handler "root") Examples.session)
     = CommandHandler.mkResponse "success" "Redo executed"
         (CommandHandler.ExDict (UndoRedo.mkResult "error" "Nothing to redo" None))
         None.
Proof.
  destruct (handler_undo_redo_report_success Database.DB Examples.log_history
              Examples.import_module (Examples.handler "root") Examples.session
              eq_refl) as (Hu & Hr & Hu' & Hr').
  split.
  - rewrite Hu. cbn [fst]. now rewrite (Hu' eq_refl).
  - rewrite Hr. cbn [fst]. now rewrite (Hr' eq_refl).
Defined.

(** C5. [execute] records an action in the history engine only after the
    permission gate has let it pass and the call of the resolved function
    has returned: either the engine is left as it was, or the text resolved
    to a function, the gate returned, the call returned, and the engine is
    what [record_action] makes of it. In particular, when the gate raises
    the answer is [Permission denied], the function is not called and
    nothing is recorded; when the function raises its message is the answer
    and nothing is recorded. *)
Theorem history_records_only_completed_actions
    (History : Type)
    (log_history : string -> string -> History -> outcome History)
    (import_module : string -> option (string -> option UndoRedo.callable))
    (self : CommandHandler.CommandHandler) (text_command : string)
    (w : CommandHandler.World History) :
  let out := CommandHandler.execute History log_history import_module self
               text_command w in
  (CommandHandler.engine (snd out) = CommandHandler.engine w
   \/ exists mapping st module_name function_name target result,
        CommandHandler.finds_target History import_module self text_command w
          mapping st module_name function_name target
        /\ CommandHandler.enforce_if_available self module_name function_name
           = Ok tt
        /\ target (default [] (args mapping)) (default [] (kwargs mapping))
           = Ok result
        /\ CommandHandler.status (fst out) = "success"
        /\ CommandHandler.engine (snd out)
           = CommandHandler._record_action History log_history self module_name
               function_name (default [] (args mapping))
               (default [] (kwargs mapping)) (CommandHandler.engine w))
  /\ (forall mapping st module_name function_name target,
         CommandHandler.finds_target History import_module self text_command w
           mapping st module_name function_name target ->
         (forall e,
             CommandHandler.enforce_if_available self module_name function_name
             = Raise e ->
             fst out = CommandHandler.error "Permission denied"
             /\ CommandHandler.engine (snd out) = CommandHandler.engine w
             /\ CommandHandler.executed (snd out) = CommandHandler.executed w)
         /\ (forall kind msg,
                CommandHandler.enforce_if_available self module_name function_name
                = Ok tt ->
                target (default [] (args mapping)) (default [] (kwargs mapping))
                = Raise (Exn kind msg) ->
                fst out = CommandHandler.error msg
                /\ CommandHandler.engine (snd out) = CommandHandler.engine w)).
Proof.
  intros out. split.
  - subst out. unfold CommandHandler.execute.
    destruct (CommandHandler._resolve_command self text_command
                (CommandHandler.resolver w)) as [[mapping|[k m]] st] eqn:Hres;
      [|now left].
    destruct (optstr_truthy (module mapping)) eqn:Hm; [|now left].
    destruct (optstr_truthy (function mapping)) eqn:Hf; [|now left].
    simpl negb; cbn [orb].
    destruct (CommandHandler._import_automation_module import_module
                (default "" (module mapping))) as [am|[k m]] eqn:Himp;
      [|now left].
    destruct (am (default "" (function mapping))) as [target|] eqn:Htarget;
      [|now left].
    destruct (CommandHandler.enforce_if_available self
                (default "" (module mapping)) (default "" (function mapping)))
      as [[]|e] eqn:Hgate; [|now left].
    destruct (target (default [] (args mapping)) (default [] (kwargs mapping)))
      as [result|[k m]] eqn:Hcall; [|now left].
    right. destruct (module mapping) as [mn|] eqn:Emn; [|discriminate].
    destruct (function mapping) as [fnm|] eqn:Efn; [|discriminate].
    exists mapping, st, mn, fnm, target, result. simpl in *.
    repeat split; try assumption; try reflexivity.
    exists am. now split.
  - intros mapping st module_name function_name target
           (Hres & Emn & Hm & Efn & Hf & am & Himp & Htarget).
    subst out. unfold CommandHandler.execute.
    rewrite Hres, Emn, Efn; simpl. rewrite Hm, Hf; simpl.
    rewrite Himp, Htarget. split.
    + intros e ->. now repeat split.
    + intros kind msg -> ->. now split.
Qed.

Lemma history_records_only_completed_actions_witness :
  (let out := CommandHandler.execute Database.DB Examples.log_history
                Examples.import_module (Examples.handler "guest")
                "open chrome" Examples.session in
   fst out = CommandHandler.error "Permission denied"
   /\ CommandHandler.engine (snd out) = CommandHandler.engine Examples.session
   /\ CommandHandler.executed (snd out) = [])
  /\ (let out := CommandHandler.execute Database.DB Examples.log_history
                   Examples.import_module (Examples.handler "root")
                   "close chrome" Examples.session in
      fst out = CommandHandler.error "no such process"
      /\ CommandHandler.engine (snd out) = CommandHandler.engine Examples.session).
Proof.
  split.
  - assert (Hfind : CommandHandler.finds_target Database.DB Examples.import_module
                      (Examples.handler "guest") "open chrome" Examples.session
                      (mkMapping None (Some "apps") (Some "open_app")
                                 (Some [PStr "chrome"]) (Some []))
                      Examples.learned_close "apps" "open_app"
                      (fun _ _ => Ok PNone)).
    { repeat split; try reflexivity. eexists; split; reflexivity. }
    exact (proj1
             (proj2 (history_records_only_completed_actions Database.DB
                       Examples.log_history Examples.import_module
                       (Examples.handler "guest") "open chrome" Examples.session)
                    _ _ _ _ _ Hfind)
             _ eq_refl).
  - assert (Hfind : CommandHandler.finds_target Database.DB Examples.import_module
                      (Examples.handler "root") "close chrome" Examples.session
                      (mkMapping None (Some "apps") (Some "close_app")
                                 (Some [PStr "chrome"]) (Some []))
                      Examples.learned_close "apps" "close_app"
                      (fun _ _ => Raise (Exn "OSError" "no such process"))).
    { repeat split; try reflexivity. eexists; split; reflexivity. }
    exact (proj2
             (proj2 (history_records_only_completed_actions Database.DB
                       Examples.log_history Examples.import_module
                       (Examples.handler "root") "close chrome" Examples.session)
                    _ _ _ _ _ Hfind)
             _ _ eq_refl eq_refl).
Defined.

(** ** The learner *)

Section LearnerFacts.

Variable env : Env.

Lemma learner_init_raises confirm manual path :
  exists name,
    Learner.__init__ env confirm manual path
    = Raise (AttributeError
               ("'Learner' object has no attribute '" ++ name ++ "'")).
Proof.
  unfold Learner.__init__.
  destruct (optstr_truthy path).
  - exists "_import_database". reflexivity.
  - exists "_default_commands_path". reflexivity.
Qed.

Lemma confirm_suggestion_returns self text_command st :
  exists chosen st',
    Learner.confirm_suggestion env self text_command st = (Ok chosen, st')
    /\ store st' = store st.
Proof.
  unfold Learner.confirm_suggestion, catch, bind, ask, ret.
  destruct (optstr_truthy _); [|now eauto].
  destruct (Learner.confirm_callback self _) as [[|]|e]; simpl;
    [destruct (Learner._map_action_via_registry _ _)|..]; now eauto.
Qed.

Lemma map_by_hand_returns self text_command st :
  exists mapping st',
    Learner.map_by_hand env self text_command st = (Ok mapping, st')
    /\ store st' = store st.
Proof.
  unfold Learner.map_by_hand, catch, bind, ask, ret.
  destruct (negb _ || negb _); [|now eauto].
  destruct (Learner.manual_map_callback self _ _); now eauto.
Qed.

Lemma handle_unknown_raises self text_command st :
  exists st',
    Learner.handle_unknown env self text_command st
    = (Raise (AttributeError
                "'Learner' object has no attribute '_validate_mapping'"), st')
    /\ store st' = store st.
Proof.
  unfold Learner.handle_unknown, bind at 1.
  destruct (confirm_suggestion_returns self text_command st)
    as (chosen & st1 & -> & H1).
  unfold bind at 1.
  destruct (fst chosen) as [mapping|].
  - exists st1. now split.
  - destruct (map_by_hand_returns self text_command st1)
      as (mapping & st2 & -> & H2).
    exists st2. split; [reflexivity | congruence].
Qed.

End LearnerFacts.

(** ** The resolver *)

Section MapperFacts.

Variable env : Env.

Lemma get_mapping_truthy command_text d m :
  Database.get_mapping command_text d = Some m -> dict_truthy m = true.
Proof.
  unfold Database.get_mapping.
  destruct (List.find _ _) as [row|]; [|discriminate].
  destruct (Py.split_once ":" (Database.row_action_name row)) as [a [b|]];
    intros [= <-]; reflexivity.
Qed.

Lemma get_mapping_no_args command_text d m :
  Database.get_mapping command_text d = Some m -> default [] (args m) = [].
Proof.
  unfold Database.get_mapping.
  destruct (List.find _ _) as [row|]; [|discriminate].
  destruct (Py.split_once ":" (Database.row_action_name row)) as [a [b|]];
    intros [= <-]; reflexivity.
Qed.

Lemma registry_mapping_truthy registry action_key m :
  registry_mapping registry action_key = Some m -> dict_truthy m = true.
Proof.
  unfold registry_mapping. destruct registry as [registry|]; [|discriminate].
  destruct (registry !! action_key) as [[mp fn|mo fo]|]; try discriminate;
    simpl; destruct (negb _ || negb _); try discriminate;
    intros [= <-]; unfold dict_truthy; simpl; now rewrite ?orb_true_r.
Qed.


Lemma accepts_80 : PrimFloat.leb Mapper.threshold (Mapper.normalized 80) = true.
Proof. vm_compute. reflexivity. Qed.

Lemma rejects_79 : PrimFloat.leb Mapper.threshold (Mapper.normalized 79) = false.
Proof. vm_compute. reflexivity. Qed.

(** On the scores [token_set_ratio] can return, the test [score >= 0.8] of
    [resolve_command] is the test [best_score >= 80]. *)
Lemma threshold_on_scores best_score :
  0 <= best_score <= 100 ->
  PrimFloat.leb Mapper.threshold (Mapper.normalized best_score)
  = (80 <=? best_score).
Proof.
  intros Hrange.
  assert (Hall : forallb
                   (fun k => Bool.eqb
                               (PrimFloat.leb Mapper.threshold
                                  (Mapper.normalized (Z.of_nat k)))
                               (80 <=? Z.of_nat k))
                   (List.seq 0 101) = true) by (vm_compute; reflexivity).
  rewrite forallb_forall in Hall.
  specialize (Hall (Z.to_nat best_score)).
  rewrite Z2Nat.id in Hall by lia.
  apply Bool.eqb_prop, Hall, in_seq. lia.
Qed.


Lemma synonym_match self text_command key score :
  Mapper.intent_recognizer self = None ->
  Mapper.best_synonym env self text_command = (Some key, score) ->
  str_truthy key = true ->
  Mapper._recognize_or_match env self text_command
  = (Some key, Mapper.normalized score).
Proof.
  intros Hrec Hbest Hkey. unfold Mapper._recognize_or_match.
  rewrite Hrec, Hbest; simpl. now rewrite Hkey.
Qed.

End MapperFacts.




Section ResolutionFacts.

Variable env : Env.

Lemma similar_command_from_store self text_command d m :
  Mapper._match_existing_db_command env self text_command d = Some m ->
  exists stored_text, Database.get_mapping stored_text d = Some m.
Proof.
  unfold Mapper._match_existing_db_command, Mapper._get_db_mapping.
  destruct (Mapper._list_db_commands self d); [discriminate|].
  destruct (best_match _ _ _) as [best_text best_score].
  destruct (optstr_truthy best_text && (80 <=? best_score)); [|discriminate].
  destruct (negb (Mapper._db self)); [discriminate|]. eauto.
Qed.

(** Where [resolve_command] is once the exact lookup has missed and the
    threshold test has not returned. *)
Lemma below_threshold self text_command st key score :
  Mapper._get_db_mapping self text_command (store st) = None ->
  Mapper._recognize_or_match env self text_command = (key, score) ->
  optstr_truthy key && PrimFloat.leb Mapper.threshold score = false ->
  Mapper.resolve_command env self text_command st
  = Mapper.resolve_below_threshold env self text_command key st.
Proof.
  intros Hmiss Hrec Hlow.
  unfold Mapper.resolve_command, bind at 1, gets.
  now rewrite Hmiss, Hrec, Hlow.
Qed.

(** With no similar stored command, the fallback puts the best key to the
    user before anything else, and leaves the store alone. *)
Lemma fallback_asks_first self text_command st key :
  str_truthy key = true ->
  Mapper._match_existing_db_command env self text_command (store st) = None ->
  let out := Mapper.resolve_below_threshold env self text_command (Some key) st in
  snd out = mkState (store st) (prompts st ++ [EvConfirm key]).
Proof.
  intros Hkey Hnone out. subst out.
  unfold Mapper.resolve_below_threshold, bind at 1, gets.
  rewrite Hnone; simpl. rewrite Hkey.
  unfold bind at 1, catch, bind at 1, ask; simpl.
  destruct (Mapper.confirm_callback self key) as [[|]|e]; simpl.
  - destruct (Mapper.truthy (Mapper._map_action_via_registry self key));
      simpl; [reflexivity|].
    destruct (Mapper._learner_ctor self); simpl; [|reflexivity].
    destruct (learner_init_raises env (Mapper.confirm_callback self)
                (Mapper.manual_map_callback self)
                (Some (Mapper.commands_config_path self))) as [name ->].
    reflexivity.
  - destruct (Mapper._learner_ctor self); simpl; [|reflexivity].
    destruct (learner_init_raises env (Mapper.confirm_callback self)
                (Mapper.manual_map_callback self)
                (Some (Mapper.commands_config_path self))) as [name ->].
    reflexivity.
  - destruct (Mapper._learner_ctor self); simpl; [|reflexivity].
    destruct (learner_init_raises env (Mapper.confirm_callback self)
                (Mapper.manual_map_callback self)
                (Some (Mapper.commands_config_path self))) as [name ->].
    reflexivity.
Qed.

End ResolutionFacts.

(** C2. For a text with no stored mapping whose best synonym match is the
    key [key]: at a score of 80, that is a confidence of exactly 0.80, the
    key is accepted, so when the catalog has an entry for it that entry is
    returned, enriched, with no question put to the user (with no entry
    there is nothing to return and the later steps run); at a score of 79
    the key is not accepted, whatever the catalog holds: resolution goes on
    with the later steps, and with no similar stored command the first of
    them asks the user to confirm the key. *)
Theorem auto_accept_threshold_boundary
    (env : Env) (self : Mapper.AdaptiveMapper) (text_command : string)
    (st : State) (key : string) :
  Mapper._get_db_mapping self text_command (store st) = None ->
  Mapper.intent_recognizer self = None ->
  str_truthy key = true ->
  (Mapper.best_synonym env self text_command = (Some key, 80) ->
   PrimFloat.eqb (snd (Mapper._recognize_or_match env self text_command))
                 Mapper.threshold = true
   /\ (forall entry,
          Mapper._map_action_via_registry self key = Some entry ->
          Mapper.resolve_command env self text_command st
          = (Ok (Mapper._enrich_mapping_with_args env text_command entry), st))
   /\ (Mapper._map_action_via_registry self key = None ->
       Mapper.resolve_command env self text_command st
       = Mapper.resolve_below_threshold env self text_command (Some key) st))
  /\ (Mapper.best_synonym env self text_command = (Some key, 79) ->
      Mapper.resolve_command env self text_command st
      = Mapper.resolve_below_threshold env self text_command (Some key) st
      /\ (Mapper._match_existing_db_command env self text_command (store st)
          = None ->
          prompts (snd (Mapper.resolve_command env self text_command st))
          = (prompts st ++ [EvConfirm key])%list)).
Proof.
  intros Hmiss Hrec Hkey. split; intros Hbest.
  - pose proof (synonym_match env self text_command key 80 Hrec Hbest Hkey) as Hm.
    split; [rewrite Hm; vm_compute; reflexivity|].
    split; [intros entry Hentry | intros Hentry];
      unfold Mapper.resolve_command, bind at 1, gets;
      rewrite Hmiss, Hm; cbn [Mapper.truthy optstr_truthy default];
      rewrite Hkey, accepts_80; cbn [id]; rewrite Hentry;
      cbn [andb Mapper.truthy]; [|reflexivity].
    unfold Mapper._map_action_via_registry in Hentry.
    now rewrite (registry_mapping_truthy _ _ _ Hentry).
  - pose proof (synonym_match env self text_command key 79 Hrec Hbest Hkey) as Hm.
    assert (Hfall : Mapper.resolve_command env self text_command st
                    = Mapper.resolve_below_threshold env self text_command
                        (Some key) st).
    { apply (below_threshold env self text_command st (Some key)
               (Mapper.normalized 79) Hmiss Hm).
      cbn [optstr_truthy]. now rewrite Hkey, rejects_79. }
    split; [exact Hfall|]. intros Hnone. rewrite Hfall.
    now rewrite (fallback_asks_first env self text_command st key Hkey Hnone).
Qed.

Lemma auto_accept_threshold_boundary_witness :
  Mapper.resolve_command (Examples.env Examples.index_photos)
    (Examples.mapper Examples.index_photos) "photoshop" Examples.fresh
  = (Ok (mkMapping None (Some "apps") (Some "open_app") (Some []) (Some [])),
     Examples.fresh)
  /\ prompts (snd (Mapper.resolve_command (Examples.env Examples.index_photoshop)
                     (Examples.mapper Examples.index_photoshop) "show photoshop"
                     Examples.fresh))
     = [EvConfirm "apps:open_app"].
Proof.
  split.
  - exact (proj1 (proj2 (proj1 (auto_accept_threshold_boundary
                                  (Examples.env Examples.index_photos)
                                  (Examples.mapper Examples.index_photos)
                                  "photoshop" Examples.fresh "apps:open_app"
                                  eq_refl eq_refl eq_refl)
                               eq_refl))
                 (mkMapping None (Some "apps") (Some "open_app") (Some []) (Some []))
                 eq_refl).
  - exact (proj2 (proj2 (auto_accept_threshold_boundary
                           (Examples.env Examples.index_photoshop)
                           (Examples.mapper Examples.index_photoshop)
                           "show photoshop" Examples.fresh "apps:open_app"
                           eq_refl eq_refl eq_refl)
                        eq_refl)
                 eq_refl).
Defined.

(** C6, at the input where the code departs from it. No [Learner] is ever
    constructed: [__init__] looks up a method that the class does not have
    and raises; and were an instance at hand, [handle_unknown] would raise
    at [_validate_mapping], before it persists anything. So for the unknown
    text ["frobnicate"], which no stored command and no synonym comes close
    to and whose suggestion the user declines, [resolve_command] raises
    [Adaptive learner unavailable], and the store holds no mapping for the
    text afterwards. *)
Theorem learner_cannot_be_constructed :
  (forall env confirm manual path,
      exists name,
        Learner.__init__ env confirm manual path
        = Raise (AttributeError
                   ("'Learner' object has no attribute '" ++ name ++ "'")))
  /\ (forall env self text_command st,
         exists st',
           Learner.handle_unknown env self text_command st
           = (Raise (AttributeError
                       "'Learner' object has no attribute '_validate_mapping'"),
              st')
           /\ store st' = store st)
  /\ (let out := Mapper.resolve_command (Examples.env Examples.index_launch)
                   (Examples.mapper Examples.index_launch) "frobnicate"
                   Examples.fresh in
      fst out = Raise (RuntimeError "Adaptive learner unavailable")
      /\ snd out = mkState Database._init_db [EvConfirm "apps:open_app"]
      /\ Database.get_mapping "frobnicate" (store (snd out)) = None).
Proof.
  split; [exact learner_init_raises|].
  split; [exact handle_unknown_raises|].
  vm_compute. repeat split.
Qed.

(** C9, at the input where the code departs from it. With ["open chrome"]
    stored for [apps:open_app] and the text ["open chrome now"], which has
    no stored mapping and no synonym match at 0.8, the stored command is
    similar at 100 and [resolve_command] returns its mapping at once, with
    no question asked, but as the store holds it: with no arguments, where
    enrichment would have made the argument ["chrome now"], and where the
    exact lookup of ["open chrome"] returns the argument ["chrome"]. This is
    so whenever the similar-command step returns: the mapping goes out as
    [get_mapping] made it, and that one has no positional arguments. *)
Theorem similar_stored_command_is_not_enriched :
  (let env := Examples.env Examples.index_launch in
   let self := Examples.mapper Examples.index_launch in
   let as_stored :=
     mkMapping (Some "apps:open_app") (Some "apps") (Some "open_app")
               (Some []) (Some []) in
   Mapper.resolve_command env self "open chrome now" Examples.learned_chrome
   = (Ok as_stored, Examples.learned_chrome)
   /\ Mapper._enrich_mapping_with_args env "open chrome now" as_stored
      = mkMapping None (Some "apps") (Some "open_app")
                  (Some [PStr "chrome now"]) (Some [])
   /\ Mapper.resolve_command env self "open chrome" Examples.learned_chrome
      = (Ok (mkMapping None (Some "apps") (Some "open_app")
                       (Some [PStr "chrome"]) (Some [])),
         Examples.learned_chrome))
  /\ (forall env self text_command st key score similar,
         Mapper._get_db_mapping self text_command (store st) = None ->
         Mapper._recognize_or_match env self text_command = (key, score) ->
         optstr_truthy key && PrimFloat.leb Mapper.threshold score = false ->
         Mapper._match_existing_db_command env self text_command (store st)
         = Some similar ->
         Mapper.resolve_command env self text_command st = (Ok similar, st)
         /\ default [] (args similar) = []).
Proof.
  split; [vm_compute; repeat split|].
  intros env self text_command st key score similar Hmiss Hrec Hlow Hsim.
  destruct (similar_command_from_store env self text_command (store st) similar
              Hsim) as [stored_text Hget].
  split; [|eapply get_mapping_no_args; eauto].
  rewrite (below_threshold env self text_command st key score Hmiss Hrec Hlow).
  unfold Mapper.resolve_below_threshold, bind at 1, gets.
  rewrite Hsim. cbn [Mapper.truthy].
  now rewrite (get_mapping_truthy _ _ _ Hget).
Qed.

(** * Further properties of the code *)

(** ** The mapping store *)

Section StoreFacts.

Import Database.

Lemma has_text_other c c' r :
  c <> c' -> has_text c' r = true -> has_text c r = false.
Proof.
  unfold has_text. intros Hne Hr. apply String.eqb_eq in Hr.
  apply String.eqb_neq. congruence.
Qed.

Lemma find_filter_other c c' rows :
  c <> c' ->
  List.find (has_text c') (List.filter (fun r => negb (has_text c r)) rows)
  = List.find (has_text c') rows.
Proof.
  intros Hne. induction rows as [|r rows IH]; simpl; [reflexivity|].
  destruct (has_text c' r) eqn:Hr.
  - rewrite (has_text_other c c' r Hne Hr); simpl. now rewrite Hr.
  - destruct (has_text c r); simpl; [exact IH|]. now rewrite Hr.
Qed.

Lemma find_snoc_miss {A} (p : A -> bool) l x :
  p x = false -> List.find p (l ++ [x]) = List.find p l.
Proof.
  intros Hx. induction l as [|y l IH]; simpl; [now rewrite Hx|].
  destruct (p y); [reflexivity | exact IH].
Qed.

Lemma find_filter_same c rows :
  List.find (has_text c) (List.filter (fun r => negb (has_text c r)) rows) = None.
Proof.
  induction rows as [|r rows IH]; simpl; [reflexivity|].
  destruct (has_text c r) eqn:Hr; simpl; [exact IH|]. now rewrite Hr.
Qed.

Lemma filter_absent c rows :
  List.find (has_text c) rows = None ->
  List.filter (fun r => negb (has_text c r)) rows = rows.
Proof.
  induction rows as [|r rows IH]; simpl; [reflexivity|].
  destruct (has_text c r); [discriminate|]. intros H. simpl. now rewrite IH.
Qed.

Lemma contains_cons d c s :
  Py.contains d (String c s) = Ascii.eqb c d || Py.contains d s.
Proof.
  unfold Py.contains; simpl. destruct (Ascii.eqb c d); [reflexivity|].
  now destruct (Py.split_once d s).
Qed.

Lemma split_once_spec d s :
  match Py.split_once d s with
  | (a, Some b) => s = a ++ String d b /\ Py.contains d a = false
  | (a, None) => a = s /\ Py.contains d s = false
  end.
Proof.
  induction s as [|c s IH]; [now split|].
  rewrite contains_cons. simpl.
  destruct (Ascii.eqb c d) eqn:Hc.
  - apply Ascii.eqb_eq in Hc. subst c. now split.
  - destruct (Py.split_once d s) as [a [b|]]; destruct IH as [IH1 IH2]; cbn.
    + split; [now subst s|]. now rewrite contains_cons, Hc.
    + split; [now subst a | exact IH2].
Qed.

End StoreFacts.

(** X1. Adding, replacing or deleting the mapping of one command text
    leaves the mapping of every other text as [get_mapping] reports it, and
    leaves the history table alone; logging a history event changes no
    mapping. *)
Theorem mapping_operations_are_local
    (c c' a ts hc ha : string) (d : Database.DB) :
  c <> c' ->
  Database.get_mapping c' (Database.add_mapping c a d) = Database.get_mapping c' d
  /\ Database.get_mapping c' (Database.delete_mapping c d)
     = Database.get_mapping c' d
  /\ Database.get_mapping c' (Database.log_history ts hc ha d)
     = Database.get_mapping c' d
  /\ Database.history (Database.add_mapping c a d) = Database.history d
  /\ Database.history (Database.delete_mapping c d) = Database.history d.
Proof.
  intros Hne. unfold Database.get_mapping; simpl.
  rewrite find_snoc_miss, !find_filter_other by
    (try exact Hne; unfold Database.has_text; simpl;
     now apply String.eqb_neq).
  repeat split.
Qed.

Lemma mapping_operations_are_local_witness :
  Database.get_mapping "open chrome"
    (Database.add_mapping "close chrome" "apps:close_app" Examples.chrome_db)
  = Database.get_mapping "open chrome" Examples.chrome_db
  /\ Database.get_mapping "open chrome"
       (Database.delete_mapping "close chrome" Examples.chrome_db)
     = Database.get_mapping "open chrome" Examples.chrome_db.
Proof.
  assert (Hne : "close chrome" <> "open chrome") by discriminate.
  destruct (mapping_operations_are_local "close chrome" "open chrome"
              "apps:close_app" "" "" "" Examples.chrome_db Hne)
    as (H1 & H2 & _).
  exact (conj H1 H2).
Defined.

(** X2. [clear_command_mapping] deletes the row of the stripped command
    text and nothing else: afterwards [get_mapping] finds nothing for it,
    every other text keeps its mapping, and the box says "cleared" exactly
    when a mapping had been stored; a command that is empty or all
    whitespace changes nothing, and a text that has no mapping leaves the
    table as it was. *)
Theorem clear_command_mapping_removes_only_that_text
    (env : Env) (command : string) (d : Database.DB) :
  database_module env = true ->
  let normalized := Py.strip command in
  let out := Learner.clear_command_mapping env command d in
  (str_truthy normalized = false -> out = (Learner.NothingToClear, d))
  /\ (str_truthy normalized = true ->
      Database.get_mapping normalized (snd out) = None
      /\ (forall other, other <> normalized ->
            Database.get_mapping other (snd out) = Database.get_mapping other d)
      /\ (fst out = Learner.ClearedMapping normalized
          <-> Database.get_mapping normalized d <> None)
      /\ (Database.get_mapping normalized d = None ->
          Database.mappings (snd out) = Database.mappings d)).
Proof.
  intros Hdb normalized out. subst out normalized.
  unfold Learner.clear_command_mapping. rewrite Hdb.
  split; intros ->; simpl; [reflexivity|].
  split; [unfold Database.get_mapping; simpl; now rewrite find_filter_same|].
  split.
  { intros other Hne.
    apply (mapping_operations_are_local (Py.strip command) other "" "" "" "" d).
    congruence. }
  split.
  - destruct (Database.get_mapping (Py.strip command) d) as [m|] eqn:Hget.
    + rewrite (get_mapping_truthy _ _ _ Hget). split; [discriminate | reflexivity].
    + split; [discriminate | congruence].
  - unfold Database.get_mapping.
    destruct (List.find _ _) as [row|] eqn:Hfind.
    + destruct (Py.split_once ":" (Database.row_action_name row)) as [x [y|]];
        discriminate.
    + intros _. now apply filter_absent.
Qed.

Lemma clear_command_mapping_removes_only_that_text_witness :
  let out := Learner.clear_command_mapping (Examples.env []) "  open chrome "
               (store Examples.learned_close) in
  fst out = Learner.ClearedMapping "open chrome"
  /\ Database.get_mapping "open chrome" (snd out) = None
  /\ Database.get_mapping "close chrome" (snd out)
     = Database.get_mapping "close chrome" (store Examples.learned_close).
Proof.
  destruct (proj2 (clear_command_mapping_removes_only_that_text
                     (Examples.env []) "  open chrome "
                     (store Examples.learned_close) eq_refl) eq_refl)
    as (H1 & H2 & H3 & _).
  assert (Hne : "close chrome" <> "open chrome") by discriminate.
  assert (Hsome : Database.get_mapping "open chrome" (store Examples.learned_close)
                  <> None) by discriminate.
  exact (conj (proj2 H3 Hsome) (conj H1 (H2 "close chrome" Hne))).
Defined.

(** X3. Whatever [get_mapping] returns carries the stored action name, and
    its module and function are the two sides of that name's first colon:
    joined by a colon they give the action name back, the module holds no
    colon, and args and kwargs are empty; for an action name with no colon
    the mapping has neither module nor function. *)
Theorem get_mapping_splits_action_name
    (command_text : string) (d : Database.DB) (m : Mapping) :
  Database.get_mapping command_text d = Some m ->
  exists stored,
    action_name m = Some stored
    /\ In stored (List.map Database.row_action_name
                    (Database.rows_for command_text d))
    /\ ((Py.contains ":" stored = false
         /\ module m = None /\ function m = None
         /\ args m = None /\ kwargs m = None)
        \/ (exists module' function',
              module m = Some module' /\ function m = Some function'
              /\ stored = module' ++ ":" ++ function'
              /\ Py.contains ":" module' = false
              /\ args m = Some [] /\ kwargs m = Some [])).
Proof.
  unfold Database.get_mapping, Database.rows_for.
  destruct (List.find _ _) as [row|] eqn:Hfind; [|discriminate].
  apply find_some in Hfind. destruct Hfind as [Hin Htext].
  pose proof (split_once_spec ":" (Database.row_action_name row)) as Hsplit.
  destruct (Py.split_once ":" (Database.row_action_name row)) as [x [y|]];
    intros [= <-]; exists (Database.row_action_name row); simpl;
    (split; [reflexivity|]);
    (split; [apply in_map, filter_In; now split|]).
  - right. exists x, y. destruct Hsplit as [Hjoin Hno].
    repeat split; try reflexivity; assumption.
  - left. destruct Hsplit as [_ Hno]. now repeat split.
Qed.

Lemma get_mapping_splits_action_name_witness :
  exists stored,
    action_name (mkMapping (Some "apps:open_app") (Some "apps") (Some "open_app")
                           (Some []) (Some [])) = Some stored
    /\ stored = "apps:open_app".
Proof.
  destruct (get_mapping_splits_action_name "open chrome" Examples.chrome_db
              (mkMapping (Some "apps:open_app") (Some "apps") (Some "open_app")
                         (Some []) (Some [])) eq_refl)
    as (stored & Hname & _ & _).
  exists stored. split; [exact Hname|]. simpl in Hname. congruence.
Defined.

Section OrderFacts.

Import Database.

Lemma insert_sorted_perm r rows : Permutation (insert_sorted r rows) (r :: rows).
Proof.
  induction rows as [|x rows IH]; simpl; [reflexivity|].
  destruct (String.leb (row_command_text r) (row_command_text x));
    [reflexivity|].
  rewrite IH. apply perm_swap.
Qed.

Lemma order_by_perm rows : Permutation (order_by_command_text rows) rows.
Proof.
  induction rows as [|x rows IH]; simpl; [reflexivity|].
  now rewrite insert_sorted_perm, IH.
Qed.

Lemma insert_sorted_sorted r rows :
  Sorted text_le rows -> Sorted text_le (insert_sorted r rows).
Proof.
  induction rows as [|x rows IH]; simpl; intros Hs.
  - repeat constructor.
  - destruct (String.leb (row_command_text r) (row_command_text x)) eqn:Hle.
    + constructor; [exact Hs | constructor; exact Hle].
    + inversion Hs as [|? ? Hs' Hhd]; subst.
      constructor; [now apply IH|].
      assert (Hxr : text_le x r).
      { unfold text_le.
        destruct (String.leb_total (row_command_text r) (row_command_text x));
          congruence. }
      destruct rows as [|y rows]; simpl; [now constructor|].
      destruct (String.leb (row_command_text r) (row_command_text y));
        constructor; [exact Hxr|]. now inversion Hhd.
Qed.

Lemma order_by_sorted rows : Sorted text_le (order_by_command_text rows).
Proof.
  induction rows as [|x rows IH]; simpl; [constructor|].
  now apply insert_sorted_sorted.
Qed.

Lemma list_commands_as_rows d :
  list_commands d
  = List.map row_command_text (order_by_command_text (mappings d)).
Proof.
  unfold list_commands, list_mappings. rewrite List.map_map. reflexivity.
Qed.

Lemma sorted_map_texts rows :
  Sorted text_le rows ->
  Sorted (fun a b => String.leb a b = true) (List.map row_command_text rows).
Proof.
  induction 1 as [|x rows Hs IH Hhd]; simpl; constructor; [exact IH|].
  destruct Hhd; simpl; constructor. assumption.
Qed.

End OrderFacts.

(** X4. [list_commands] returns every stored command text exactly as often
    as the table holds it (once, in a store the operations can produce), in
    ascending order; this is the order in which the resolver's
    similar-command step scans them. *)
Theorem list_commands_sorted_and_complete (d : Database.DB) :
  Permutation (Database.list_commands d) (Database.command_texts d)
  /\ Sorted (fun a b => String.leb a b = true) (Database.list_commands d)
  /\ (forall c, In c (Database.list_commands d)
                <-> Database.get_mapping c d <> None).
Proof.
  rewrite list_commands_as_rows. split; [|split].
  - unfold Database.command_texts. apply Permutation_map, order_by_perm.
  - apply sorted_map_texts, order_by_sorted.
  - intros c. rewrite in_map_iff. split.
    + intros (r & Hc & Hin).
      apply (Permutation_in _ (order_by_perm _)) in Hin.
      unfold Database.get_mapping.
      destruct (List.find (Database.has_text c) (Database.mappings d))
        as [row|] eqn:Hfind.
      * destruct (Py.split_once ":" (Database.row_action_name row)) as [x [y|]];
          discriminate.
      * exfalso. apply (find_none _ _ Hfind) in Hin.
        unfold Database.has_text in Hin. rewrite Hc, String.eqb_refl in Hin.
        discriminate.
    + unfold Database.get_mapping.
      destruct (List.find (Database.has_text c) (Database.mappings d))
        as [row|] eqn:Hfind; [|congruence].
      intros _. apply find_some in Hfind. destruct Hfind as [Hin Htext].
      exists row. split; [now apply String.eqb_eq|].
      apply (Permutation_in _ (Permutation_sym (order_by_perm _))), Hin.
Qed.

(** X5. [get_history] returns the events most recent first and never more
    than [max(1, limit)] of them: the event logged last is always the first
    one returned, also for a limit of zero or less, which returns exactly
    that event. A limit of [2 ** 63] or more is refused with
    [OverflowError]. *)
Theorem get_history_most_recent_first
    (limit : Z) (ts command action : string) (d : Database.DB) :
  let logged := Database.log_history ts command action d in
  (2 ^ 63 <= limit ->
   Database.get_history limit d
   = Raise (Exn "OverflowError"
                "Python int too large to convert to SQLite INTEGER"))
  /\ (limit < 2 ^ 63 ->
      (exists events,
          Database.get_history limit d = Ok events
          /\ (length events <= Z.to_nat (Z.max 1 limit))%nat)
      /\ Database.get_history limit logged
         = Ok (Database.mkEvent command action ts
               :: firstn (Z.to_nat (Z.max 1 limit) - 1)
                    (List.map Database.event_of (rev (Database.history d)))))
  /\ (limit <= 1 ->
      Database.get_history limit logged
      = Ok [Database.mkEvent command action ts])
  /\ Database.mappings logged = Database.mappings d.
Proof.
  intros logged. subst logged. unfold Database.get_history.
  assert (Hpos : exists n, Z.to_nat (Z.max 1 limit) = S n).
  { exists (Z.to_nat (Z.max 1 limit) - 1)%nat. lia. }
  destruct Hpos as [n Hn]. cbv zeta. rewrite Hn.
  assert (Hbig : 0 < 2 ^ 63) by reflexivity.
  destruct (2 ^ 63 <=? Z.max 1 limit) eqn:Hle;
    [apply Z.leb_le in Hle | apply Z.leb_gt in Hle].
  - split; [reflexivity|]. split; [intros Hlt; lia|].
    split; [intros Hlimit; lia | reflexivity].
  - split; [intros Hge; lia|]. split; [|split; [|reflexivity]].
    + intros _. split.
      * eexists. split; [reflexivity|].
        rewrite List.length_map, List.length_firstn. lia.
      * simpl. rewrite List.rev_app_distr; simpl.
        rewrite List.firstn_map, Nat.sub_0_r. reflexivity.
    + intros Hlimit. simpl. rewrite List.rev_app_distr; simpl.
      assert (n = 0)%nat by lia. subst n. reflexivity.
Qed.

(** ** The history engine *)

Section EngineFacts.

Import UndoRedo.

Context {History : Type}.
Variable log_history : string -> string -> History -> outcome History.
Variable import_module : string -> option (string -> option callable).

Lemma pop_spec {A} (stack : list A) :
  match pop stack with
  | None => stack = []
  | Some (rest, top) => stack = (rest ++ [top])%list
  end.
Proof.
  induction stack as [|x stack IH]; simpl; [reflexivity|].
  destruct (pop stack) as [[rest top]|]; subst; reflexivity.
Qed.

Lemma invoke_world path done r missing (w : World History) :
  let out := invoke History import_module path done r missing w in
  stacks (snd out) = stacks w /\ db (snd out) = db w.
Proof.
  unfold invoke, stacks.
  destruct (_import_function import_module path) as [fn|]; [|now split].
  destruct (fn (args r) (kwargs r)) as [v|[k m]]; now split.
Qed.

Lemma undo_last_stacks (w : World History) rest r :
  _executed_stack w = (rest ++ [r])%list ->
  stacks (snd (undo_last History log_history import_module w))
  = (rest, (_undone_stack w ++ [r])%list)
  /\ db (snd (undo_last History log_history import_module w))
     = try_log History log_history (function_path r) "UNDO" (db w).
Proof.
  intros Hstack. unfold undo_last. rewrite Hstack, pop_snoc.
  destruct (negb _ || negb _); [now split|].
  match goal with
  | |- context [invoke ?H ?i ?p ?d ?x ?m ?y] =>
      destruct (invoke_world p d x m y) as [E1 E2]
  end.
  now rewrite E1, E2.
Qed.

Lemma redo_last_stacks (w : World History) rest r :
  _undone_stack w = (rest ++ [r])%list ->
  stacks (snd (redo_last History log_history import_module w))
  = ((_executed_stack w ++ [r])%list, rest)
  /\ db (snd (redo_last History log_history import_module w))
     = try_log History log_history (function_path r) "REDO" (db w).
Proof.
  intros Hstack. unfold redo_last. rewrite Hstack, pop_snoc.
  match goal with
  | |- context [invoke ?H ?i ?p ?d ?x ?m ?y] =>
      destruct (invoke_world p d x m y) as [E1 E2]
  end.
  now rewrite E1, E2.
Qed.

Lemma nonempty_snoc {A} (l : list A) : l <> [] -> exists rest x, l = (rest ++ [x])%list.
Proof.
  intros Hne. pose proof (pop_spec l) as H.
  destruct (pop l) as [[rest x]|]; [eauto | contradiction].
Qed.

Lemma held_undo (e : World History) :
  held (snd (undo_last History log_history import_module e))
  = held e.
Proof.
  pose proof (pop_spec (_executed_stack e)) as Hpop.
  destruct (pop (_executed_stack e)) as [[rest r]|] eqn:E.
  - destruct (undo_last_stacks e rest r Hpop)
      as [Hs _].
    unfold stacks in Hs. injection Hs as He Hu.
    unfold held. rewrite He, Hu, Hpop, List.rev_app_distr; simpl.
    now rewrite <- List.app_assoc.
  - unfold undo_last. now rewrite E.
Qed.

Lemma held_redo (e : World History) :
  held (snd (redo_last History log_history import_module e))
  = held e.
Proof.
  pose proof (pop_spec (_undone_stack e)) as Hpop.
  destruct (pop (_undone_stack e)) as [[rest r]|] eqn:E.
  - destruct (redo_last_stacks e rest r Hpop)
      as [Hs _].
    unfold stacks in Hs. injection Hs as He Hu.
    unfold held. rewrite He, Hu, Hpop, List.rev_app_distr; simpl.
    now rewrite <- List.app_assoc.
  - unfold redo_last. now rewrite E.
Qed.

End EngineFacts.

(** X6. [undo_last] and [redo_last] never lose, duplicate or reorder a
    record: the executed records followed by the undone ones, next to be
    redone first, are the same list before and after; only [record_action]
    drops records, namely all the undone ones. *)
Theorem undo_redo_keep_every_record
    (History : Type)
    (log_history : string -> string -> History -> outcome History)
    (import_module : string -> option (string -> option UndoRedo.callable))
    (w : UndoRedo.World History) :
  UndoRedo.held (snd (UndoRedo.undo_last History log_history import_module w))
  = UndoRedo.held w
  /\ UndoRedo.held (snd (UndoRedo.redo_last History log_history import_module w))
     = UndoRedo.held w
  /\ (forall a, UndoRedo.held (UndoRedo.record History log_history a w)
                = (UndoRedo._executed_stack w ++ [a])%list).
Proof.
  split; [apply held_undo | split; [apply held_redo|]].
  intros a. unfold UndoRedo.held.
  destruct (record_spec log_history a w) as (He & Hu & _).
  now rewrite He, Hu, List.app_nil_r.
Qed.

(** X7. Undo and redo are inverse on the stacks: with something executed,
    [undo_last] followed by [redo_last] leaves both stacks as they were, and
    with something undone so does [redo_last] followed by [undo_last],
    whether or not the functions behind the record could be called. *)
Theorem undo_then_redo_restores_stacks
    (History : Type)
    (log_history : string -> string -> History -> outcome History)
    (import_module : string -> option (string -> option UndoRedo.callable))
    (w : UndoRedo.World History) :
  let undo := UndoRedo.undo_last History log_history import_module in
  let redo := UndoRedo.redo_last History log_history import_module in
  (UndoRedo._executed_stack w <> [] ->
   UndoRedo.stacks (snd (redo (snd (undo w)))) = UndoRedo.stacks w)
  /\ (UndoRedo._undone_stack w <> [] ->
      UndoRedo.stacks (snd (undo (snd (redo w)))) = UndoRedo.stacks w).
Proof.
  intros undo redo. subst undo redo. cbv beta. split; intros Hne;
    destruct (nonempty_snoc _ Hne) as (rest & r & Hstack).
  - destruct (undo_last_stacks log_history import_module w rest r Hstack)
      as [Hs _].
    unfold UndoRedo.stacks in Hs. injection Hs as He Hu.
    destruct (redo_last_stacks log_history import_module _
                (UndoRedo._undone_stack w) r Hu) as [Hs' _].
    rewrite Hs'. unfold UndoRedo.stacks. now rewrite He, Hstack.
  - destruct (redo_last_stacks log_history import_module w rest r Hstack)
      as [Hs _].
    unfold UndoRedo.stacks in Hs. injection Hs as He Hu.
    destruct (undo_last_stacks log_history import_module _
                (UndoRedo._executed_stack w) r He) as [Hs' _].
    rewrite Hs'. unfold UndoRedo.stacks. now rewrite Hu, Hstack.
Qed.

Lemma undo_then_redo_restores_stacks_witness :
  UndoRedo.stacks
    (snd (UndoRedo.redo_last Database.DB Examples.log_history
            Examples.import_module
            (snd (UndoRedo.undo_last Database.DB Examples.log_history
                    Examples.import_module Examples.after_open_chrome))))
  = ([Examples.open_chrome], []).
Proof.
  assert (Hne : UndoRedo._executed_stack Examples.after_open_chrome <> [])
    by discriminate.
  exact (proj1 (undo_then_redo_restores_stacks Database.DB Examples.log_history
                  Examples.import_module Examples.after_open_chrome) Hne).
Defined.

(** X8. [undo_last] on a reversible record with an inverse path moves the
    record to the undone stack whatever happens next; when the inverse path
    imports to a function, exactly that function is called once, with the
    record's original arguments: if it returns, the answer is success and
    names the inverse, and if it raises, the answer is an error carrying
    the exception's message and the move is not rolled back; when the path
    does not import, nothing is called and the answer is [Undo function not
    found]. *)
Theorem reversible_undo_calls_inverse
    (History : Type)
    (log_history : string -> string -> History -> outcome History)
    (import_module : string -> option (string -> option UndoRedo.callable))
    (w : UndoRedo.World History)
    (rest : list UndoRedo.ActionRecord) (record : UndoRedo.ActionRecord)
    (inverse : string) :
  UndoRedo._executed_stack w = (rest ++ [record])%list ->
  UndoRedo.reversible record = true ->
  UndoRedo.undo_function_path record = Some inverse ->
  str_truthy inverse = true ->
  let out := UndoRedo.undo_last History log_history import_module w in
  UndoRedo.stacks (snd out) = (rest, (UndoRedo._undone_stack w ++ [record])%list)
  /\ (UndoRedo._import_function import_module inverse = None ->
      fst out = UndoRedo.mkResult "error" "Undo function not found" (Some None)
      /\ UndoRedo.calls (snd out) = UndoRedo.calls w)
  /\ (forall fn,
         UndoRedo._import_function import_module inverse = Some fn ->
         UndoRedo.calls (snd out)
         = (UndoRedo.calls w
            ++ [UndoRedo.mkCall inverse (UndoRedo.args record)
                  (UndoRedo.kwargs record)])%list
         /\ (forall v,
                fn (UndoRedo.args record) (UndoRedo.kwargs record) = Ok v ->
                fst out = UndoRedo.mkResult "success" "Undo executed"
                            (Some (Some inverse)))
         /\ (forall kind msg,
                fn (UndoRedo.args record) (UndoRedo.kwargs record)
                = Raise (Exn kind msg) ->
                fst out = UndoRedo.mkResult "error" msg (Some None))).
Proof.
  intros Hstack Hrev Hinv Htruthy out.
  split; [exact (proj1 (undo_last_stacks log_history import_module w rest record
                          Hstack))|].
  subst out. unfold UndoRedo.undo_last.
  rewrite Hstack, pop_snoc, Hrev, Hinv; simpl. rewrite Htruthy; simpl.
  unfold UndoRedo.invoke; simpl.
  destruct (UndoRedo._import_function import_module inverse) as [fn|].
  - split; [discriminate|].
    intros fn' [= <-].
    destruct (fn (UndoRedo.args record) (UndoRedo.kwargs record))
      as [v|[k m]]; simpl; (split; [reflexivity|]); split;
      intros; try discriminate; congruence.
  - split; [now split|]. discriminate.
Qed.

Lemma reversible_undo_calls_inverse_witness :
  let w := UndoRedo.record Database.DB Examples.log_history
             Examples.open_chrome_reversible
             (UndoRedo.__init__ Database._init_db) in
  let out := UndoRedo.undo_last Database.DB Examples.log_history
               Examples.import_module w in
  UndoRedo.stacks (snd out) = ([], [Examples.open_chrome_reversible])
  /\ UndoRedo.calls (snd out)
     = [UndoRedo.mkCall "apps.close_app" [PStr "chrome"] []]
  /\ fst out = UndoRedo.mkResult "error" "no such process" (Some None).
Proof.
  destruct (reversible_undo_calls_inverse Database.DB Examples.log_history
              Examples.import_module
              (UndoRedo.record Database.DB Examples.log_history
                 Examples.open_chrome_reversible
                 (UndoRedo.__init__ Database._init_db))
              [] Examples.open_chrome_reversible "apps.close_app"
              eq_refl eq_refl eq_refl eq_refl) as (H1 & _ & H3).
  destruct (H3 (fun _ _ => Raise (Exn "OSError" "no such process")) eq_refl)
    as (H4 & _ & H5).
  exact (conj H1 (conj H4 (H5 "OSError" "no such process" eq_refl))).
Defined.

(** X9. With a history table that accepts the row, [record_action],
    [undo_last] and [redo_last] each append exactly one event, of kind
    EXECUTE, UNDO and REDO, under the record's function path; the soft
    failures [Nothing to undo] and [Nothing to redo] append none; and no
    mapping is touched. *)
Theorem stack_operations_log_one_event
    (ts : string)
    (import_module : string -> option (string -> option UndoRedo.callable))
    (w : UndoRedo.World Database.DB) :
  let log := fun command action d =>
               Ok (Database.log_history ts command action d) in
  let event := fun path kind =>
                 Database.mkHistory (Database.history_seq (UndoRedo.db w) + 1)
                   path kind ts in
  let undone := UndoRedo.undo_last Database.DB log import_module w in
  let redone := UndoRedo.redo_last Database.DB log import_module w in
  (forall a,
      Database.history (UndoRedo.db (UndoRedo.record Database.DB log a w))
      = (Database.history (UndoRedo.db w)
         ++ [event (UndoRedo.function_path a) "EXECUTE"])%list)
  /\ (forall rest r,
         UndoRedo._executed_stack w = (rest ++ [r])%list ->
         Database.history (UndoRedo.db (snd undone))
         = (Database.history (UndoRedo.db w)
            ++ [event (UndoRedo.function_path r) "UNDO"])%list)
  /\ (forall rest r,
         UndoRedo._undone_stack w = (rest ++ [r])%list ->
         Database.history (UndoRedo.db (snd redone))
         = (Database.history (UndoRedo.db w)
            ++ [event (UndoRedo.function_path r) "REDO"])%list)
  /\ (UndoRedo._executed_stack w = [] -> snd undone = w)
  /\ (UndoRedo._undone_stack w = [] -> snd redone = w)
  /\ Database.mappings (UndoRedo.db (snd undone))
     = Database.mappings (UndoRedo.db w)
  /\ Database.mappings (UndoRedo.db (snd redone))
     = Database.mappings (UndoRedo.db w).
Proof.
  intros log event undone redone. subst undone redone.
  split; [intros a; now destruct a|].
  split.
  { intros rest r Hstack.
    now rewrite (proj2 (undo_last_stacks log import_module w rest r Hstack)). }
  split.
  { intros rest r Hstack.
    now rewrite (proj2 (redo_last_stacks log import_module w rest r Hstack)). }
  split; [intros Hnil; unfold UndoRedo.undo_last; now rewrite Hnil|].
  split; [intros Hnil; unfold UndoRedo.redo_last; now rewrite Hnil|].
  split.
  - pose proof (pop_spec (UndoRedo._executed_stack w)) as Hpop.
    destruct (UndoRedo.pop (UndoRedo._executed_stack w)) as [[rest r]|] eqn:E.
    + now rewrite (proj2 (undo_last_stacks log import_module w rest r Hpop)).
    + unfold UndoRedo.undo_last. now rewrite E.
  - pose proof (pop_spec (UndoRedo._undone_stack w)) as Hpop.
    destruct (UndoRedo.pop (UndoRedo._undone_stack w)) as [[rest r]|] eqn:E.
    + now rewrite (proj2 (redo_last_stacks log import_module w rest r Hpop)).
    + unfold UndoRedo.redo_last. now rewrite E.
Qed.

Lemma stack_operations_log_one_event_witness :
  Database.history
    (UndoRedo.db
       (snd (UndoRedo.undo_last Database.DB Examples.log_history
               Examples.import_module Examples.after_open_chrome)))
  = [Database.mkHistory 1 "apps.open_app" "EXECUTE" "2024-01-01T00:00:00";
     Database.mkHistory 2 "apps.open_app" "UNDO" "2024-01-01T00:00:00"].
Proof.
  exact (proj1 (proj2 (stack_operations_log_one_event "2024-01-01T00:00:00"
                         Examples.import_module Examples.after_open_chrome))
               [] Examples.open_chrome eq_refl).
Defined.

Section PathFacts.

Lemma contains_append d m f : Py.contains d (m ++ String d f) = true.
Proof.
  induction m as [|c m IH].
  - change ("" ++ String d f) with (String d f).
    unfold Py.contains; simpl. now rewrite Ascii.eqb_refl.
  - change (String c m ++ String d f) with (String c (m ++ String d f)).
    rewrite contains_cons, IH. apply orb_true_r.
Qed.

Lemma rsplit_once_none d s :
  Py.contains d s = false -> Py.rsplit_once d s = None.
Proof.
  induction s as [|c s IH]; [reflexivity|].
  rewrite contains_cons. intros H. apply orb_false_iff in H.
  destruct H as [Hc Hs]. simpl. now rewrite (IH Hs), Hc.
Qed.

Lemma rsplit_once_join d m f :
  Py.contains d f = false ->
  Py.rsplit_once d (m ++ String d f) = Some (m, f).
Proof.
  intros Hf. induction m as [|c m IH].
  - change ("" ++ String d f) with (String d f). simpl.
    now rewrite (rsplit_once_none d f Hf), Ascii.eqb_refl.
  - change (String c m ++ String d f) with (String c (m ++ String d f)).
    simpl. now rewrite IH.
Qed.

Lemma truthy_append m c f : str_truthy (m ++ String c f) = true.
Proof. destruct m; reflexivity. Qed.

Lemma import_function_path
    (import_module : string -> option (string -> option UndoRedo.callable))
    module_name func_name :
  Py.contains "." func_name = false ->
  UndoRedo._import_function import_module (module_name ++ "." ++ func_name)
  = match import_module module_name with
    | Some module => module func_name
    | None => None
    end
  /\ UndoRedo._import_function import_module func_name = None.
Proof.
  intros Hf. unfold UndoRedo._import_function. split.
  - change (String.append "." func_name) with (String "." func_name).
    now rewrite truthy_append, contains_append, rsplit_once_join.
  - rewrite Hf. simpl. now rewrite orb_true_r.
Qed.

End PathFacts.

(** X10. [_import_function] splits a dotted path at its last dot: for a
    function name with no dot in it, the path [module.name] is looked up as
    attribute [name] of the module [importlib] finds under [module], and is
    [None] when the module does not import or has no such attribute; a path
    with no dot at all, the empty one included, is never imported. *)
Theorem import_function_splits_at_last_dot
    (import_module : string -> option (string -> option UndoRedo.callable))
    (module_name func_name : string) :
  Py.contains "." func_name = false ->
  UndoRedo._import_function import_module (module_name ++ "." ++ func_name)
  = match import_module module_name with
    | Some module => module func_name
    | None => None
    end
  /\ UndoRedo._import_function import_module func_name = None.
Proof. apply import_function_path. Qed.

Lemma import_function_splits_at_last_dot_witness :
  UndoRedo._import_function Examples.import_module
    ("backend.automation.apps" ++ "." ++ "open_app")
  = Examples.import_module "backend.automation.apps"
      ≫= (fun module => module "open_app").
Proof.
  exact (proj1 (import_function_splits_at_last_dot Examples.import_module
                  "backend.automation.apps" "open_app" eq_refl)).
Defined.

(** ** The command handler *)

Section SessionFacts.

Import CommandHandler.

Context {History : Type}.
Variable log_history : string -> string -> History -> outcome History.
Variable import_module : string -> option (string -> option UndoRedo.callable).

(** What [execute] can do to the history engine. *)
Lemma execute_engine self text_command (w : World History) :
  let out := execute History log_history import_module self text_command w in
  engine (snd out) = engine w
  \/ exists module_name function_name args kwargs,
        engine (snd out)
        = _record_action History log_history self module_name function_name
            args kwargs (engine w).
Proof.
  unfold execute.
  destruct (_resolve_command self text_command (resolver w))
    as [[mapping|[k m]] st]; [|now left].
  destruct (negb _ || negb _); [now left|].
  destruct (_import_automation_module import_module _) as [am|[k m]];
    [|now left].
  destruct (am _) as [target|]; [|now left].
  destruct (enforce_if_available self _ _) as [[]|e]; [|now left].
  destruct (target _ _) as [result|[k m]]; [|now left].
  right. simpl. eauto.
Qed.

(** [execute] when everything goes well. *)
Lemma execute_success self text_command (w : World History)
    mapping st module_name function_name target result :
  finds_target History import_module self text_command w mapping st
    module_name function_name target ->
  enforce_if_available self module_name function_name = Ok tt ->
  target (default [] (args mapping)) (default [] (kwargs mapping)) = Ok result ->
  execute History log_history import_module self text_command w
  = (mkResponse "success" "Command executed successfully"
       (ExPath (module_name ++ "." ++ function_name)) (Some result),
     mkWorld st
       (_record_action History log_history self module_name function_name
          (default [] (args mapping)) (default [] (kwargs mapping)) (engine w))
       (executed w
        ++ [UndoRedo.mkCall (module_name ++ "." ++ function_name)
              (default [] (args mapping)) (default [] (kwargs mapping))])%list).
Proof.
  intros (Hres & Emn & Hm & Efn & Hf & am & Himp & Htarget) Hgate Hcall.
  unfold execute. rewrite Hres, Emn, Efn; simpl. rewrite Hm, Hf; simpl.
  now rewrite Himp, Htarget, Hgate, Hcall.
Qed.

Lemma reachable_irreversible self (w : World History) :
  reachable History log_history import_module self w ->
  Forall UndoRedo.irreversible (UndoRedo.held (engine w)).
Proof.
  induction 1 as [st h|text_command w Hw IH|w Hw IH|w Hw IH|st w Hw IH]; simpl.
  - constructor.
  - destruct (execute_engine self text_command w) as [->|(mn & fnm & a & k & ->)];
      [exact IH|].
    unfold _record_action. destruct (negb (_undo_redo self)); [exact IH|].
    unfold UndoRedo.held, UndoRedo.record_action; simpl.
    rewrite List.app_nil_r. apply Forall_app. split.
    + unfold UndoRedo.held in IH. apply Forall_app in IH. tauto.
    + repeat constructor.
  - unfold undo. destruct (negb (_undo_redo self)); [exact IH|].
    pose proof (held_undo log_history import_module (engine w)) as Hh.
    destruct (UndoRedo.undo_last _ _ _ _) as [r e]. simpl in *. now rewrite Hh.
  - unfold redo. destruct (negb (_undo_redo self)); [exact IH|].
    pose proof (held_redo log_history import_module (engine w)) as Hh.
    destruct (UndoRedo.redo_last _ _ _ _) as [r e]. simpl in *. now rewrite Hh.
  - exact IH.
Qed.

End SessionFacts.

(** X11. No action that goes through the command handler is ever recorded
    as reversible: in every session every record the engine holds has
    [reversible = False] and no inverse path. So an undo through the handler
    never calls a function: the engine answers with an error ([Nothing to
    undo] or [Action is not reversible]), which the handler wraps in its
    success response. *)
Theorem handler_never_records_reversible
    (History : Type)
    (log_history : string -> string -> History -> outcome History)
    (import_module : string -> option (string -> option UndoRedo.callable))
    (self : CommandHandler.CommandHandler) (w : CommandHandler.World History) :
  CommandHandler.reachable History log_history import_module self w ->
  let undone := UndoRedo.undo_last History log_history import_module
                  (CommandHandler.engine w) in
  Forall UndoRedo.irreversible (UndoRedo.held (CommandHandler.engine w))
  /\ UndoRedo.calls (snd undone) = UndoRedo.calls (CommandHandler.engine w)
  /\ (fst undone = UndoRedo.mkResult "error" "Nothing to undo" None
      \/ fst undone
         = UndoRedo.mkResult "error" "Action is not reversible" (Some None))
  /\ UndoRedo.calls
       (CommandHandler.engine
          (snd (CommandHandler.undo History log_history import_module self w)))
     = UndoRedo.calls (CommandHandler.engine w).
Proof.
  intros Hreach undone.
  pose proof (reachable_irreversible log_history import_module self w Hreach)
    as Hall.
  split; [exact Hall|].
  assert (Hu : UndoRedo.calls (snd undone)
               = UndoRedo.calls (CommandHandler.engine w)
               /\ (fst undone = UndoRedo.mkResult "error" "Nothing to undo" None
                   \/ fst undone
                      = UndoRedo.mkResult "error" "Action is not reversible"
                          (Some None))).
  { subst undone. unfold UndoRedo.undo_last.
    pose proof (pop_spec (UndoRedo._executed_stack (CommandHandler.engine w)))
      as Hpop.
    destruct (UndoRedo.pop _) as [[rest r]|]; [|split; [reflexivity | now left]].
    assert (Hr : UndoRedo.irreversible r).
    { unfold UndoRedo.held in Hall. rewrite Hpop in Hall.
      apply Forall_app in Hall. destruct Hall as [Hall _].
      apply Forall_app in Hall. destruct Hall as [_ Hall].
      now inversion Hall. }
    destruct Hr as [-> _]. simpl. split; [reflexivity | now right]. }
  destruct Hu as [Hcalls Hres]. split; [exact Hcalls|]. split; [exact Hres|].
  unfold CommandHandler.undo. destruct (negb _); [reflexivity|].
  fold undone. destruct undone as [r e]. exact Hcalls.
Qed.

Lemma handler_never_records_reversible_witness :
  let w := snd (CommandHandler.execute Database.DB Examples.log_history
                  Examples.import_module (Examples.handler "root")
                  "open chrome" Examples.session) in
  fst (UndoRedo.undo_last Database.DB Examples.log_history Examples.import_module
         (CommandHandler.engine w))
  = UndoRedo.mkResult "error" "Action is not reversible" (Some None)
  /\ UndoRedo.calls
       (snd (UndoRedo.undo_last Database.DB Examples.log_history
               Examples.import_module (CommandHandler.engine w)))
     = [].
Proof.
  pose proof (handler_never_records_reversible Database.DB Examples.log_history
                Examples.import_module (Examples.handler "root") _
                (CommandHandler.reach_execute Database.DB Examples.log_history
                   Examples.import_module (Examples.handler "root")
                   "open chrome" Examples.session
                   (CommandHandler.reach_fresh Database.DB Examples.log_history
                      Examples.import_module (Examples.handler "root")
                      Examples.learned_close Database._init_db)))
    as (_ & Hcalls & Hres & _).
  split; [|exact Hcalls].
  destruct Hres as [Hres|Hres]; [discriminate Hres | exact Hres].
Defined.

(** X12. [execute] imports the automation module as
    [backend.automation.<module>] first, but records the action under the
    path [<module>.<function>], and [redo_last] imports from that recorded
    path. So when the module imports only as a member of the package, an
    action that was executed and then undone cannot be redone: the engine
    moves the record back, answers [Function not found for redo] inside the
    handler's success response, and the function is not called again. *)
Theorem redo_imports_from_recorded_path
    (History : Type)
    (log_history : string -> string -> History -> outcome History)
    (import_module : string -> option (string -> option UndoRedo.callable))
    (self : CommandHandler.CommandHandler) (text_command : string)
    (w : CommandHandler.World History)
    (mapping : Mapping) (st : State) (module_name function_name : string)
    (target : UndoRedo.callable) (result : pyval) :
  CommandHandler._undo_redo self = true ->
  CommandHandler.finds_target History import_module self text_command w
    mapping st module_name function_name target ->
  CommandHandler.enforce_if_available self module_name function_name = Ok tt ->
  target (default [] (args mapping)) (default [] (kwargs mapping)) = Ok result ->
  Py.contains "." function_name = false ->
  import_module module_name = None ->
  let record :=
    UndoRedo.mkRecord (module_name ++ "." ++ function_name)
      (default [] (args mapping)) (default [] (kwargs mapping)) false None in
  let executed := CommandHandler.execute History log_history import_module self
                    text_command w in
  let undone := CommandHandler.undo History log_history import_module self
                  (snd executed) in
  let redone := CommandHandler.redo History log_history import_module self
                  (snd undone) in
  CommandHandler.status (fst executed) = "success"
  /\ fst redone
     = CommandHandler.mkResponse "success" "Redo executed"
         (CommandHandler.ExDict
            (UndoRedo.mkResult "error" "Function not found for redo" (Some None)))
         None
  /\ UndoRedo.stacks (CommandHandler.engine (snd redone))
     = ((UndoRedo._executed_stack (CommandHandler.engine w) ++ [record])%list, [])
  /\ UndoRedo.calls (CommandHandler.engine (snd redone))
     = UndoRedo.calls (CommandHandler.engine w).
Proof.
  intros Havail Hfind Hgate Hcall Hdot Hmod record executed undone redone.
  assert (Himp : UndoRedo._import_function import_module
                   (module_name ++ "." ++ function_name) = None).
  { rewrite (proj1 (import_function_path import_module module_name function_name
                      Hdot)).
    now rewrite Hmod. }
  subst redone undone executed.
  rewrite (execute_success log_history import_module self text_command w
             mapping st module_name function_name target result
             Hfind Hgate Hcall).
  split; [reflexivity|].
  unfold CommandHandler.undo, CommandHandler.redo,
    CommandHandler._record_action. rewrite Havail. simpl.
  unfold UndoRedo.undo_last; simpl. rewrite pop_snoc; simpl.
  unfold UndoRedo.redo_last; simpl.
  unfold UndoRedo.invoke. rewrite Himp. simpl.
  repeat split.
Qed.

Lemma redo_imports_from_recorded_path_witness :
  let executed := CommandHandler.execute Database.DB Examples.log_history
                    Examples.packaged_import (Examples.handler "root")
                    "open chrome" Examples.session in
  let undone := CommandHandler.undo Database.DB Examples.log_history
                  Examples.packaged_import (Examples.handler "root")
                  (snd executed) in
  let redone := CommandHandler.redo Database.DB Examples.log_history
                  Examples.packaged_import (Examples.handler "root")
                  (snd undone) in
  CommandHandler.status (fst executed) = "success"
  /\ fst redone
     = CommandHandler.mkResponse "success" "Redo executed"
         (CommandHandler.ExDict
            (UndoRedo.mkResult "error" "Function not found for redo" (Some None)))
         None.
Proof.
  assert (Hfind : CommandHandler.finds_target Database.DB Examples.packaged_import
                    (Examples.handler "root") "open chrome" Examples.session
                    (mkMapping None (Some "apps") (Some "open_app")
                               (Some [PStr "chrome"]) (Some []))
                    Examples.learned_close "apps" "open_app"
                    (fun _ _ => Ok PNone)).
  { repeat split; try reflexivity. eexists; split; reflexivity. }
  destruct (redo_imports_from_recorded_path Database.DB Examples.log_history
              Examples.packaged_import (Examples.handler "root") "open chrome"
              Examples.session _ _ _ _ _ PNone eq_refl Hfind eq_refl eq_refl
              eq_refl eq_refl) as (H1 & H2 & _).
  exact (conj H1 H2).
Defined.

(** X13. Every way [execute] can fail before the call leaves the session
    as it was and answers with status [error]: a missing mapper module and
    an exception of the resolver are reported as [Failed to resolve
    command: ...] with the exception's message, and a mapping with no
    module or no function as [Mapping must contain 'module' and
    'function'], with nothing imported, checked or called. *)
Theorem execute_reports_failures_without_effect
    (History : Type)
    (log_history : string -> string -> History -> outcome History)
    (import_module : string -> option (string -> option UndoRedo.callable))
    (self : CommandHandler.CommandHandler) (text_command : string)
    (w : CommandHandler.World History) :
  let out := CommandHandler.execute History log_history import_module self
               text_command w in
  (CommandHandler._mapper self = None ->
   out = (CommandHandler.error
            "Failed to resolve command: Mapper module not available", w))
  /\ (forall kind msg st,
         CommandHandler._resolve_command self text_command
           (CommandHandler.resolver w) = (Raise (Exn kind msg), st) ->
         out = (CommandHandler.error ("Failed to resolve command: " ++ msg),
                CommandHandler.mkWorld st (CommandHandler.engine w)
                  (CommandHandler.executed w)))
  /\ (forall mapping st,
         CommandHandler._resolve_command self text_command
           (CommandHandler.resolver w) = (Ok mapping, st) ->
         optstr_truthy (module mapping) && optstr_truthy (function mapping)
         = false ->
         out = (CommandHandler.error
                  "Mapping must contain 'module' and 'function'",
                CommandHandler.mkWorld st (CommandHandler.engine w)
                  (CommandHandler.executed w))).
Proof.
  intros out. subst out. unfold CommandHandler.execute. split; [|split].
  - intros Hnone. unfold CommandHandler._resolve_command. rewrite Hnone.
    simpl. now destruct w.
  - intros kind msg st ->. reflexivity.
  - intros mapping st -> Hfalsy.
    apply andb_false_iff in Hfalsy.
    destruct Hfalsy as [-> | ->]; simpl; now rewrite ?orb_true_r.
Qed.

(** ** The matchers *)

Section MatchFacts.

Context {A : Type}.
Variable score_of : A -> Z.
Variable name_of : A -> string.

Lemma best_match_step seen best c :
  best_so_far score_of name_of seen best ->
  best_so_far score_of name_of (seen ++ [c])
    (if snd best <? score_of c then (Some (name_of c), score_of c) else best).
Proof.
  unfold best_so_far. destruct best as [[name|] bs]; simpl.
  - intros (before & c0 & after & -> & -> & Hs & Hpos & Hb & Ha).
    destruct (bs <? score_of c) eqn:Hlt; simpl.
    + apply Z.ltb_lt in Hlt.
      exists (before ++ c0 :: after)%list, c, []. repeat split; try lia.
      * apply Forall_app. split.
        -- eapply Forall_impl; [exact Hb|]. simpl. intros; lia.
        -- constructor; [lia|].
           eapply Forall_impl; [exact Ha|]. simpl. intros; lia.
      * constructor.
    + apply Z.ltb_ge in Hlt.
      exists before, c0, (after ++ [c])%list.
      rewrite <- List.app_assoc. repeat split; try assumption.
      apply Forall_app. split; [exact Ha|]. repeat constructor. lia.
  - intros [-> Hall].
    destruct (0 <? score_of c) eqn:Hlt; simpl.
    + apply Z.ltb_lt in Hlt. exists seen, c, []. repeat split; try lia.
      * eapply Forall_impl; [exact Hall|]. simpl. intros; lia.
      * constructor.
    + apply Z.ltb_ge in Hlt. split; [reflexivity|].
      apply Forall_app. split; [exact Hall|]. repeat constructor. lia.
Qed.

Lemma best_match_fold candidates seen best :
  best_so_far score_of name_of seen best ->
  best_so_far score_of name_of (seen ++ candidates)
    (fold_left
       (fun (best : option string * Z) (c : A) =>
          let score := score_of c in
          if snd best <? score then (Some (name_of c), score) else best)
       candidates best).
Proof.
  revert seen best. induction candidates as [|c candidates IH];
    intros seen best Hbest; simpl.
  - now rewrite List.app_nil_r.
  - replace (seen ++ c :: candidates)%list with ((seen ++ [c]) ++ candidates)%list
      by now rewrite <- List.app_assoc.
    apply IH. now apply best_match_step.
Qed.

Lemma best_match_spec candidates :
  best_so_far score_of name_of candidates
    (best_match score_of name_of candidates).
Proof.
  apply (best_match_fold candidates [] (None, 0)).
  split; [reflexivity | constructor].
Qed.

End MatchFacts.

Section StripFacts.

Lemma lstrip_head s :
  Py.lstrip s = "" \/ exists c r, Py.lstrip s = String c r /\ Py.isspace c = false.
Proof.
  induction s as [|c s IH]; simpl; [now left|].
  destruct (Py.isspace c) eqn:Hc; [exact IH|]. right. eauto.
Qed.

Lemma rstrip_idem s : Py.rstrip (Py.rstrip s) = Py.rstrip s.
Proof.
  induction s as [|c s IH]; simpl; [reflexivity|].
  destruct ((Py.rstrip s =? "")%string && Py.isspace c) eqn:Hcond;
    [reflexivity|].
  simpl. now rewrite IH, Hcond.
Qed.

Lemma rstrip_keeps_head c r :
  Py.isspace c = false -> Py.rstrip (String c r) = String c (Py.rstrip r).
Proof. intros Hc. simpl. now rewrite Hc, andb_false_r. Qed.

Lemma strip_idem s : Py.strip (Py.strip s) = Py.strip s.
Proof.
  unfold Py.strip.
  destruct (lstrip_head s) as [-> | (c & r & -> & Hc)]; [reflexivity|].
  rewrite (rstrip_keeps_head c r Hc). simpl Py.lstrip. rewrite Hc.
  rewrite <- (rstrip_keeps_head c r Hc). apply rstrip_idem.
Qed.

End StripFacts.

Section EnrichFacts.

Variable env : Env.

Lemma enrich_given_args text_command m a rest :
  args m = Some (a :: rest) ->
  Mapper._enrich_mapping_with_args env text_command m
  = mkMapping None (Some (Py.strip (default "" (module m))))
      (Some (Py.strip (default "" (function m)))) (Some (a :: rest))
      (Some (default [] (kwargs m))).
Proof.
  intros Hargs. unfold Mapper._enrich_mapping_with_args. now rewrite Hargs.
Qed.

Lemma enrich_idem text_command m :
  Mapper._enrich_mapping_with_args env text_command
    (Mapper._enrich_mapping_with_args env text_command m)
  = Mapper._enrich_mapping_with_args env text_command m.
Proof.
  unfold Mapper._enrich_mapping_with_args at 2 3. cbv zeta.
  repeat match goal with
         | |- context [match ?x with _ => _ end] => destruct x eqn:?
         end;
    unfold Mapper._enrich_mapping_with_args; cbv zeta; simpl;
    rewrite ?strip_idem;
    repeat match goal with
           | H : ?x = _ |- context [?x] => rewrite H
           end;
    simpl; rewrite ?strip_idem; try reflexivity.
Qed.

End EnrichFacts.

(** X14. The synonym matchers keep the first best score: the key
    [_recognize_or_match] and [_suggest_action] work with is the key of the
    first entry of the index whose score, the highest ratio over the key
    and its aliases, is the highest of all and above 0 (an earlier entry
    scores strictly less, a later one at most as much); with no score above
    0 there is no key. [_suggest_action] returns that key only from a score
    of 70 on. *)
Theorem first_best_score_wins
    (env : Env) (self : Mapper.AdaptiveMapper) (learner : Learner.Learner)
    (text_command : string) :
  best_so_far (entry_score env text_command) fst (Mapper._commands_index self)
    (Mapper.best_synonym env self text_command)
  /\ (forall key,
         Learner._suggest_action env learner text_command = Some key ->
         exists before entry after,
           Learner._commands_index learner = (before ++ entry :: after)%list
           /\ key = fst entry
           /\ 70 <= entry_score env text_command entry
           /\ Forall (fun e => entry_score env text_command e
                               < entry_score env text_command entry) before
           /\ Forall (fun e => entry_score env text_command e
                               <= entry_score env text_command entry) after)
  /\ (Forall (fun e => entry_score env text_command e < 70)
             (Learner._commands_index learner) ->
      Learner._suggest_action env learner text_command = None).
Proof.
  split; [apply best_match_spec|].
  pose proof (best_match_spec (entry_score env text_command) fst
                (Learner._commands_index learner)) as Hbest.
  unfold Learner._suggest_action, best_so_far in *.
  destruct (best_match _ _ _) as [[name|] bs]; simpl in Hbest.
  - destruct Hbest as (before & c & after & Hidx & -> & Hs & Hpos & Hb & Ha).
    split.
    + intros key. destruct (70 <=? bs) eqn:Hge; [|discriminate].
      intros [= <-]. apply Z.leb_le in Hge.
      exists before, c, after. repeat split; try assumption. lia.
    + intros Hall. rewrite Hidx in Hall. apply Forall_app in Hall.
      destruct Hall as [_ Hall]. inversion Hall as [|? ? Hc _]; subst.
      destruct (70 <=? entry_score env text_command c) eqn:Hge;
        [apply Z.leb_le in Hge; lia | reflexivity].
  - split; [|now destruct (70 <=? bs)].
    intros key. now destruct (70 <=? bs).
Qed.

Lemma first_best_score_wins_witness :
  Learner._suggest_action (Examples.env Examples.index_photos)
    (Learner.mkLearner (fun _ => Ok false) (fun _ _ => Ok Learner.empty_mapping)
       "config/commands.json" None true Examples.index_launch)
    "frobnicate"
  = None.
Proof.
  apply (proj2 (proj2 (first_best_score_wins (Examples.env Examples.index_photos)
                         (Examples.mapper Examples.index_photos)
                         (Learner.mkLearner (fun _ => Ok false)
                            (fun _ _ => Ok Learner.empty_mapping)
                            "config/commands.json" None true
                            Examples.index_launch)
                         "frobnicate"))).
  repeat constructor.
Defined.

(** X15. On the scores [fuzz.token_set_ratio] returns, ints from 0 to 100,
    the floating-point test [score >= 0.8] that [resolve_command] applies
    to [best_score / 100.0] holds exactly when [best_score >= 80]. *)
Theorem auto_accept_is_score_80 (best_score : Z) :
  0 <= best_score <= 100 ->
  PrimFloat.leb Mapper.threshold (Mapper.normalized best_score)
  = (80 <=? best_score).
Proof. apply threshold_on_scores. Qed.

Lemma auto_accept_is_score_80_witness :
  PrimFloat.leb Mapper.threshold (Mapper.normalized 81) = true.
Proof.
  assert (Hrange : 0 <= 81 <= 100) by lia.
  exact (auto_accept_is_score_80 81 Hrange).
Defined.

(** X16. An intent recognizer that returns a key takes precedence over the
    synonym index, with the confidence it reports; one that raises, or
    returns no key or an empty one, is ignored: resolution then goes
    exactly as with no recognizer at all. *)
Theorem failing_recognizer_is_ignored
    (env : Env) (self : Mapper.AdaptiveMapper)
    (recognizer : string -> outcome (option string * float))
    (text_command : string) (st : State) :
  Mapper.intent_recognizer self = Some recognizer ->
  (forall key confidence,
      recognizer text_command = Ok (Some key, confidence) ->
      str_truthy key = true ->
      Mapper._recognize_or_match env self text_command = (Some key, confidence))
  /\ ((exists e, recognizer text_command = Raise e)
      \/ (exists key confidence,
            recognizer text_command = Ok (key, confidence)
            /\ optstr_truthy key = false) ->
      Mapper.resolve_command env self text_command st
      = Mapper.resolve_command env (Mapper.without_recognizer self)
          text_command st).
Proof.
  intros Hrec. split.
  - intros key confidence Hok Hkey. unfold Mapper._recognize_or_match.
    rewrite Hrec, Hok. simpl. now rewrite Hkey.
  - intros Hfail.
    assert (Hsame : Mapper._recognize_or_match env self text_command
                    = Mapper._recognize_or_match env
                        (Mapper.without_recognizer self) text_command).
    { unfold Mapper._recognize_or_match. rewrite Hrec. simpl.
      destruct Hfail as [[e ->] | (key & confidence & -> & Hkey)];
        [reflexivity|]. now rewrite Hkey. }
    unfold Mapper.resolve_command. rewrite Hsame. reflexivity.
Qed.

Lemma failing_recognizer_is_ignored_witness :
  let self := Mapper.__init__ (Examples.env Examples.index_photos)
                (Some (fun _ => Raise (Exn "ValueError" "no model")))
                (fun _ => Ok false) (fun _ _ => Ok Learner.empty_mapping)
                None true in
  Mapper.resolve_command (Examples.env Examples.index_photos) self "photoshop"
    Examples.fresh
  = Mapper.resolve_command (Examples.env Examples.index_photos)
      (Mapper.without_recognizer self) "photoshop" Examples.fresh.
Proof.
  apply (proj2 (failing_recognizer_is_ignored (Examples.env Examples.index_photos)
                  (Mapper.__init__ (Examples.env Examples.index_photos)
                     (Some (fun _ => Raise (Exn "ValueError" "no model")))
                     (fun _ => Ok false) (fun _ _ => Ok Learner.empty_mapping)
                     None true)
                  (fun _ => Raise (Exn "ValueError" "no model"))
                  "photoshop" Examples.fresh eq_refl)).
  left. eexists. reflexivity.
Defined.

(** X17. Argument enrichment never replaces arguments a mapping already
    has, whatever the text; and it is idempotent: enriching an enriched
    mapping again with the same text changes nothing. *)
Theorem enrichment_is_idempotent
    (env : Env) (text_command : string) (m : Mapping) :
  Mapper._enrich_mapping_with_args env text_command
    (Mapper._enrich_mapping_with_args env text_command m)
  = Mapper._enrich_mapping_with_args env text_command m
  /\ (forall a rest,
         args m = Some (a :: rest) ->
         Mapper._enrich_mapping_with_args env text_command m
         = mkMapping None (Some (Py.strip (default "" (module m))))
             (Some (Py.strip (default "" (function m)))) (Some (a :: rest))
             (Some (default [] (kwargs m)))).
Proof.
  split; [apply enrich_idem | intros a rest; apply enrich_given_args].
Qed.

Section FallbackFacts.

Variable env : Env.

(** Where the fallback of [resolve_command] leaves the state: as it was,
    or with one confirmation asked and the store as it was. *)
Lemma below_threshold_outcome self text_command key st :
  exists result st',
    Mapper.resolve_below_threshold env self text_command key st = (result, st')
    /\ (st' = st
        \/ exists k, st' = mkState (store st) (prompts st ++ [EvConfirm k])).
Proof.
  unfold Mapper.resolve_below_threshold, bind at 1, gets.
  destruct (Mapper.truthy (Mapper._match_existing_db_command env self
                             text_command (store st))) as [m|]; simpl;
    [do 2 eexists; split; [reflexivity | now left]|].
  unfold bind at 1.
  destruct (optstr_truthy key); simpl.
  - unfold catch, bind at 1, ask; simpl.
    destruct (Mapper.confirm_callback self (default "" key)) as [[|]|e]; simpl;
      try destruct (Mapper.truthy (Mapper._map_action_via_registry self
                                     (default "" key))) as [m|]; simpl;
      try (do 2 eexists; split; [reflexivity | right; eauto]);
      (destruct (Mapper._learner_ctor self); simpl;
       [destruct (learner_init_raises env (Mapper.confirm_callback self)
                    (Mapper.manual_map_callback self)
                    (Some (Mapper.commands_config_path self))) as [name ->];
        simpl|]);
      (do 2 eexists; split; [reflexivity | right; eauto]).
  - destruct (Mapper._learner_ctor self); simpl;
      [destruct (learner_init_raises env (Mapper.confirm_callback self)
                   (Mapper.manual_map_callback self)
                   (Some (Mapper.commands_config_path self))) as [name ->];
       simpl|];
      (do 2 eexists; split; [reflexivity | now left]).
Qed.

End FallbackFacts.

(** X18. [resolve_command] only reads the mapping store: whatever the text
    and however resolution ends, with a mapping or with an exception, the
    store is left as it was. And it puts at most one question to the user,
    the confirmation of the best key. *)
Theorem resolve_command_only_reads_the_store
    (env : Env) (self : Mapper.AdaptiveMapper) (text_command : string)
    (st : State) :
  let out := Mapper.resolve_command env self text_command st in
  store (snd out) = store st
  /\ (prompts (snd out) = prompts st
      \/ exists key, prompts (snd out) = (prompts st ++ [EvConfirm key])%list).
Proof.
  cbv zeta.
  assert (Hout : exists result st',
             Mapper.resolve_command env self text_command st = (result, st')
             /\ (st' = st
                 \/ exists k, st' = mkState (store st)
                                      (prompts st ++ [EvConfirm k]))).
  { unfold Mapper.resolve_command, bind at 1, gets.
    destruct (Mapper.truthy (Mapper._get_db_mapping self text_command (store st)))
      as [m|]; [do 2 eexists; split; [reflexivity | now left]|].
    destruct (Mapper._recognize_or_match env self text_command) as [key score].
    destruct (if optstr_truthy key && PrimFloat.leb Mapper.threshold score
              then Mapper.truthy (Mapper._map_action_via_registry self
                                    (default "" key))
              else None) as [m|];
      [do 2 eexists; split; [reflexivity | now left]|].
    apply below_threshold_outcome. }
  destruct Hout as (result & st' & -> & Hst). simpl. split.
  - destruct Hst as [-> | [k ->]]; reflexivity.
  - destruct Hst as [-> | [k ->]]; [now left | right; eauto].
Qed.

(** X19. The similar-command step of the resolver returns a mapping only
    for a stored command text whose ratio to the input is at least 80 and
    at least that of every other stored text, and then it is the mapping
    the store holds for that text; with every stored text below 80, or with
    an empty store, it returns nothing. *)
Theorem similar_command_needs_ratio_80
    (env : Env) (self : Mapper.AdaptiveMapper) (text_command : string)
    (d : Database.DB) :
  (forall m,
      Mapper._match_existing_db_command env self text_command d = Some m ->
      exists stored,
        In stored (Database.list_commands d)
        /\ 80 <= token_set_ratio env text_command stored
        /\ Forall (fun c => token_set_ratio env text_command c
                            <= token_set_ratio env text_command stored)
                  (Database.list_commands d)
        /\ Database.get_mapping stored d = Some m)
  /\ (Forall (fun c => token_set_ratio env text_command c < 80)
             (Database.list_commands d) ->
      Mapper._match_existing_db_command env self text_command d = None).
Proof.
  unfold Mapper._match_existing_db_command, Mapper._list_db_commands,
    Mapper._get_db_mapping.
  destruct (negb (Mapper._db self)); [split; [discriminate | reflexivity]|].
  generalize (Database.list_commands d). intros [|c0 cs];
    [split; [discriminate | reflexivity]|].
  remember (c0 :: cs) as commands eqn:Hcommands. clear Hcommands.
  pose proof (best_match_spec (token_set_ratio env text_command) id commands)
    as Hbest.
  unfold best_so_far in Hbest.
  destruct (best_match _ _ _) as [[name|] bs]; simpl in Hbest.
  - destruct Hbest as (before & c & after & Hidx & -> & Hs & Hpos & Hb & Ha).
    unfold id. simpl. split.
    + intros m. destruct (str_truthy c && (80 <=? bs)) eqn:Hcond; [|discriminate].
      intros Hget. apply andb_true_iff in Hcond. destruct Hcond as [_ Hge].
      apply Z.leb_le in Hge. exists c. rewrite Hidx.
      split; [apply in_or_app; right; now left|].
      split; [lia|]. split; [|exact Hget].
      apply Forall_app. split.
      * eapply Forall_impl; [exact Hb|]. simpl. intros; lia.
      * constructor; [lia | exact Ha].
    + intros Hall. rewrite Hidx in Hall. apply Forall_app in Hall.
      destruct Hall as [_ Hall]. inversion Hall as [|? ? Hc _]; subst.
      destruct (80 <=? token_set_ratio env text_command c) eqn:Hge;
        [apply Z.leb_le in Hge; lia | now rewrite andb_false_r].
  - split; [discriminate | reflexivity].
Qed.

Section GateFacts.

Import Permissions.

Lemma contains_app d a b :
  Py.contains d (a ++ b) = Py.contains d a || Py.contains d b.
Proof.
  induction a as [|c a IH]; [reflexivity|].
  change (String c a ++ b) with (String c (a ++ b)).
  rewrite !contains_cons, IH. apply orb_assoc.
Qed.

Lemma function_path_of_dotted command :
  Py.contains ":" command = false ->
  _function_path_from_command command = command.
Proof.
  intros H. unfold _function_path_from_command.
  pose proof (split_once_spec ":" command) as Hs.
  destruct (Py.split_once ":" command) as [a [b|]]; [|reflexivity].
  destruct Hs as [-> _]. now rewrite contains_append in H.
Qed.

Lemma function_path_of_colon module func :
  Py.contains ":" module = false ->
  _function_path_from_command (module ++ ":" ++ func) = module ++ "." ++ func.
Proof.
  intros H. unfold _function_path_from_command.
  change (String.append ":" func) with (String ":" func).
  now rewrite (split_once_join ":" module func H).
Qed.

Lemma split_all_nonempty d s : split_all d s <> [].
Proof.
  destruct s as [|c s]; simpl; [discriminate|].
  destruct (Ascii.eqb c d); [discriminate|].
  destruct (split_all d s); discriminate.
Qed.

Lemma split_all_plain d s : Py.contains d s = false -> split_all d s = [s].
Proof.
  induction s as [|c s IH]; [reflexivity|].
  rewrite contains_cons. intros H. apply orb_false_iff in H.
  destruct H as [Hc Hs]. simpl. now rewrite Hc, (IH Hs).
Qed.

Lemma split_all_app d p r :
  split_all d (p ++ String d r) = (split_all d p ++ split_all d r)%list.
Proof.
  induction p as [|c p IH].
  - change ("" ++ String d r) with (String d r). simpl.
    now rewrite Ascii.eqb_refl.
  - change (String c p ++ String d r) with (String c (p ++ String d r)).
    simpl. rewrite IH. destruct (Ascii.eqb c d); [reflexivity|].
    pose proof (split_all_nonempty d p) as Hne.
    destruct (split_all d p) as [|h t]; [contradiction | reflexivity].
Qed.

Lemma last_two_app xs a b : last_two (xs ++ [a; b]) = [a; b].
Proof.
  induction xs as [|x xs IH]; [reflexivity|].
  destruct xs as [|y [|z xs]]; [reflexivity | exact IH | exact IH].
Qed.

(** The two segments of a command [module.function]. *)
Lemma two_segments module func :
  Py.contains "." module = false ->
  Py.contains "." func = false ->
  split_all "." (module ++ "." ++ func) = [module; func].
Proof.
  intros Hm Hf. change (String.append "." func) with (String "." func).
  now rewrite split_all_app, (split_all_plain _ _ Hm), (split_all_plain _ _ Hf).
Qed.

End GateFacts.

(** X20. The permission gate treats [module:function] and
    [module.function] alike: for a module and a function name without a
    colon, both spellings of a command get the same decision, or fail in
    the same way, for every user, every users file and either logger. *)
Theorem colon_and_dot_commands_agree
    (users : string -> option string) (loguru : bool)
    (user_id module function : string) :
  Py.contains ":" module = false ->
  Py.contains ":" function = false ->
  Permissions.check_permission users loguru user_id (module ++ ":" ++ function)
  = Permissions.check_permission users loguru user_id
      (module ++ "." ++ function).
Proof.
  intros Hm Hf. unfold Permissions.check_permission.
  rewrite (function_path_of_colon module function Hm).
  rewrite (function_path_of_dotted (module ++ "." ++ function)); [reflexivity|].
  rewrite contains_app, Hm.
  change (String.append "." function) with (String "." function).
  now rewrite contains_cons, Hf.
Qed.

Lemma colon_and_dot_commands_agree_witness :
  Permissions.check_permission Examples.office_users true "sam" "apps:open_app"
  = Permissions.check_permission Examples.office_users true "sam"
      "apps.open_app".
Proof.
  exact (colon_and_dot_commands_agree Examples.office_users true "sam" "apps"
           "open_app" eq_refl eq_refl).
Defined.

(** X21. On the commands the handler checks, [module.function] with no
    further dot or colon in either name, the roles are ordered: what a
    guest may run, a standard user may run as well. *)
Theorem guest_rights_extend_to_standard_users
    (users : string -> option string) (loguru : bool)
    (guest_id standard_id module function : string) :
  Permissions._get_user_role users guest_id = "guest" ->
  Permissions._get_user_role users standard_id = "standard_user" ->
  Py.contains "." module = false ->
  Py.contains "." function = false ->
  Py.contains ":" module = false ->
  Py.contains ":" function = false ->
  Permissions.check_permission users loguru guest_id
    (module ++ "." ++ function) = Ok true ->
  Permissions.check_permission users loguru standard_id
    (module ++ "." ++ function) = Ok true.
Proof.
  intros Hguest Hstandard Hm Hf Hcm Hcf.
  assert (Hpath : Permissions._function_path_from_command
                    (module ++ "." ++ function) = module ++ "." ++ function).
  { apply function_path_of_dotted. rewrite contains_app, Hcm.
    change (String.append "." function) with (String "." function).
    now rewrite contains_cons, Hcf. }
  unfold Permissions.check_permission.
  rewrite Hguest, Hstandard, Hpath. cbv zeta.
  unfold Permissions._category_from_function.
  rewrite (two_segments module function Hm Hf).
  change (String.append "." function) with (String "." function).
  rewrite contains_append.
  change (Permissions.last_two [module; function]) with [module; function].
  change (String.concat "." [module; function])
    with (module ++ String "." function).
  change (Permissions.policy_of "guest")
    with (Some (Permissions.mkPolicy false [] [])).
  change (Permissions.policy_of "standard_user")
    with (Some (Permissions.mkPolicy false
                  ["browser"; "youtube"; "apps"; "email"; "whatsapp"]
                  ["system.shutdown"; "system.restart"])).
  cbn [default id Permissions.allow_all Permissions.blocked_functions
         Permissions.allowed_categories String.eqb Ascii.eqb Bool.eqb].
  destruct (Permissions.member (module ++ String "." function)
              Permissions.SAFE_READ_ONLY_FUNCTIONS) eqn:Hsafe;
    [intros _ | unfold Permissions.security_event;
                destruct loguru; discriminate].
  assert (Hcases : In (module ++ String "." function)
                      Permissions.SAFE_READ_ONLY_FUNCTIONS).
  { unfold Permissions.member in Hsafe. apply existsb_exists in Hsafe.
    destruct Hsafe as (x & Hin & Heq). apply String.eqb_eq in Heq. now subst x. }
  assert (Hparts : forall m f,
             module ++ String "." function = m ++ String "." f ->
             Py.contains "." m = false -> Py.contains "." f = false ->
             module = m /\ function = f).
  { intros m f Heq Hm' Hf'.
    pose proof (two_segments module function Hm Hf) as H1.
    pose proof (two_segments m f Hm' Hf') as H2.
    change (String.append "." function) with (String "." function) in H1.
    change (String.append "." f) with (String "." f) in H2.
    rewrite Heq, H2 in H1. now injection H1 as -> ->. }
  simpl in Hcases.
  destruct Hcases as [H|[H|[H|[H|[H|[H|[]]]]]]]; symmetry in H;
    [ destruct (Hparts "browser" "open_url" H eq_refl eq_refl) as [-> ->]
    | destruct (Hparts "browser" "search_google" H eq_refl eq_refl) as [-> ->]
    | destruct (Hparts "browser" "get_wikipedia_summary" H eq_refl eq_refl)
        as [-> ->]
    | destruct (Hparts "youtube" "play_video" H eq_refl eq_refl) as [-> ->]
    | destruct (Hparts "youtube" "search_and_play" H eq_refl eq_refl) as [-> ->]
    | destruct (Hparts "apps" "list_running_apps" H eq_refl eq_refl) as [-> ->] ];
    reflexivity.
Qed.

Lemma guest_rights_extend_to_standard_users_witness :
  Permissions.check_permission Examples.office_users true "sam"
    "browser.open_url" = Ok true.
Proof.
  exact (guest_rights_extend_to_standard_users Examples.office_users true
           "visitor" "sam" "browser" "open_url"
           eq_refl eq_refl eq_refl eq_refl eq_refl eq_refl eq_refl).
Defined.

(** X22. A standard user is never allowed [system.shutdown] or
    [system.restart], however the command qualifies them: alone or behind
    any dotted prefix, such as [backend.automation.system.shutdown] or
    [apps.system.restart], [check_permission] never answers yes and
    [enforce_permission] never returns. With loguru installed the answer
    is no and [enforce_permission] raises [PermissionError]; without it,
    logging the denial raises [TypeError] out of both. *)
Theorem standard_user_never_shuts_down
    (users : string -> option string) (loguru : bool)
    (user_id prefix fn : string) :
  Permissions._get_user_role users user_id = "standard_user" ->
  In fn ["system.shutdown"; "system.restart"] ->
  Py.contains ":" prefix = false ->
  let refused : outcome bool :=
    if loguru then Ok false
    else Raise (Exn "TypeError" "level must be an integer") in
  Permissions.check_permission users loguru user_id fn = refused
  /\ Permissions.check_permission users loguru user_id (prefix ++ "." ++ fn)
     = refused
  /\ Permissions.enforce_permission users loguru user_id (prefix ++ "." ++ fn)
     = Raise (if loguru
              then Exn "PermissionError" "Unauthorized command for this role"
              else Exn "TypeError" "level must be an integer")
  /\ Permissions.enforce_permission users loguru user_id fn <> Ok tt
  /\ Permissions.enforce_permission users loguru user_id (prefix ++ "." ++ fn)
     <> Ok tt.
Proof.
  intros Hrole Hfn Hprefix refused.
  assert (Hcheck : Permissions.check_permission users loguru user_id fn
                   = refused
                   /\ Permissions.check_permission users loguru user_id
                        (prefix ++ "." ++ fn) = refused).
  { unfold Permissions.check_permission. rewrite Hrole.
    destruct Hfn as [<-|[<-|[]]].
    - split; [subst refused; now destruct loguru|].
      rewrite function_path_of_dotted
        by (rewrite contains_app, Hprefix; reflexivity).
      change (prefix ++ "." ++ "system.shutdown")
        with (prefix ++ String "." "system.shutdown").
      rewrite contains_append, split_all_app.
      change (Permissions.split_all "." "system.shutdown")
        with ["system"; "shutdown"].
      rewrite last_two_app. subst refused. now destruct loguru.
    - split; [subst refused; now destruct loguru|].
      rewrite function_path_of_dotted
        by (rewrite contains_app, Hprefix; reflexivity).
      change (prefix ++ "." ++ "system.restart")
        with (prefix ++ String "." "system.restart").
      rewrite contains_append, split_all_app.
      change (Permissions.split_all "." "system.restart")
        with ["system"; "restart"].
      rewrite last_two_app. subst refused. now destruct loguru. }
  destruct Hcheck as [H1 H2]. split; [exact H1|]. split; [exact H2|].
  unfold Permissions.enforce_permission. rewrite H1, H2. subst refused.
  now destruct loguru.
Qed.

Lemma standard_user_never_shuts_down_witness :
  Permissions.check_permission Examples.office_users false "sam"
    "system.shutdown"
  = Raise (Exn "TypeError" "level must be an integer")
  /\ Permissions.check_permission Examples.office_users true "sam"
       "apps.system.shutdown" = Ok false
  /\ Permissions.enforce_permission Examples.office_users true "sam"
       "apps.system.shutdown"
     = Raise (Exn "PermissionError" "Unauthorized command for this role").
Proof.
  pose proof (standard_user_never_shuts_down Examples.office_users false "sam"
                "apps" "system.shutdown" eq_refl (or_introl eq_refl) eq_refl)
    as (H1 & _).
  pose proof (standard_user_never_shuts_down Examples.office_users true "sam"
                "apps" "system.shutdown" eq_refl (or_introl eq_refl) eq_refl)
    as (_ & H2 & H3 & _).
  exact (conj H1 (conj H2 H3)).
Defined.

Section DiscoveryFacts.

Import Registry.

Lemma register_functions_sound module_path members registry key entry :
  _register_module_functions module_path members registry !! key = Some entry ->
  registry !! key = Some entry
  \/ exists fn,
      (In fn members /\ Py.startswith "_" fn = false)
      /\ key = Py.last_segment "." module_path ++ ":" ++ fn
      /\ entry = Discovered module_path fn.
Proof.
  unfold _register_module_functions.
  revert registry. induction members as [|fn members IH]; intros registry;
    simpl; [now left|].
  intros H. apply IH in H. destruct H as [H | (fn' & [Hin Hpub] & Hk & He)].
  - destruct (Py.startswith "_" fn) eqn:Hfn; [now left|].
    unfold register in H. apply lookup_insert_Some in H.
    destruct H as [[<- <-] | [_ H]]; [|now left].
    right. exists fn. repeat split; auto.
  - right. exists fn'. repeat split; auto.
Qed.

Lemma register_functions_complete module_path members registry key :
  is_Some (registry !! key)
  \/ (exists fn,
         (In fn members /\ Py.startswith "_" fn = false)
         /\ key = Py.last_segment "." module_path ++ ":" ++ fn) ->
  is_Some (_register_module_functions module_path members registry !! key).
Proof.
  unfold _register_module_functions.
  revert registry. induction members as [|fn members IH]; intros registry;
    simpl.
  - intros [H | (fn & [[] _] & _)]. exact H.
  - intros H. apply IH.
    destruct H as [H | (fn' & [[<- | Hin] Hpub] & Hk)].
    + left. destruct (Py.startswith "_" fn); [exact H|].
      unfold register. apply lookup_insert_is_Some'. now right.
    + left. rewrite Hpub. unfold register. subst key.
      apply lookup_insert_is_Some'. now left.
    + right. exists fn'. repeat split; auto.
Qed.

Lemma discovery_sound package key entry :
  _discover_modules_and_functions package !! key = Some entry ->
  exists modules module_info members fn,
    package = Some modules
    /\ In module_info modules
    /\ functions module_info = Some members
    /\ (In fn members /\ Py.startswith "_" fn = false)
    /\ key = Py.last_segment "." (name module_info) ++ ":" ++ fn
    /\ entry = Discovered (name module_info) fn.
Proof.
  unfold _discover_modules_and_functions.
  destruct package as [modules|]; [|now rewrite lookup_empty].
  intros H.
  enough (Hfold : forall ms registry,
             fold_left
               (fun registry module_info =>
                  match functions module_info with
                  | None => registry
                  | Some members =>
                      _register_module_functions (name module_info) members
                        registry
                  end) ms registry !! key = Some entry ->
             registry !! key = Some entry
             \/ exists mi members fn,
                 In mi ms /\ functions mi = Some members
                 /\ (In fn members /\ Py.startswith "_" fn = false)
                 /\ key = Py.last_segment "." (name mi) ++ ":" ++ fn
                 /\ entry = Discovered (name mi) fn).
  { apply Hfold in H. destruct H as [H | (mi & members & fn & Hrest)];
      [now rewrite lookup_empty in H|].
    exists modules, mi, members, fn. split; [reflexivity | exact Hrest]. }
  clear H. induction ms as [|mi ms IH]; intros registry; simpl; [now left|].
  intros H. apply IH in H.
  destruct H as [H | (mi' & members & fn & Hin & Hrest)].
  - destruct (functions mi) as [members|] eqn:Hf; [|now left].
    apply register_functions_sound in H.
    destruct H as [H | (fn & Hpub & Hk & He)]; [now left|].
    right. exists mi, members, fn. repeat split; auto; apply Hpub.
  - right. exists mi', members, fn. split; [now right | exact Hrest].
Qed.

Lemma discovery_complete modules module_info members fn :
  In module_info modules ->
  functions module_info = Some members ->
  (In fn members /\ Py.startswith "_" fn = false) ->
  is_Some (_discover_modules_and_functions (Some modules)
             !! (Py.last_segment "." (name module_info) ++ ":" ++ fn)).
Proof.
  unfold _discover_modules_and_functions.
  intros Hin Hf Hpub.
  enough (Hfold : forall ms registry,
             is_Some (registry !! (Py.last_segment "." (name module_info) ++ ":" ++ fn))
             \/ In module_info ms ->
             is_Some (fold_left
                        (fun registry module_info =>
                           match functions module_info with
                           | None => registry
                           | Some members =>
                               _register_module_functions (name module_info)
                                 members registry
                           end) ms registry
                        !! (Py.last_segment "." (name module_info) ++ ":" ++ fn))).
  { apply Hfold. now right. }
  induction ms as [|mi ms IH]; intros registry; simpl.
  - intros [H | []]. exact H.
  - intros H. apply IH. destruct H as [H | [<- | H]].
    + left. destruct (functions mi); [|exact H].
      apply register_functions_complete. now left.
    + left. rewrite Hf. apply register_functions_complete.
      right. now exists fn.
    + now right.
Qed.

End DiscoveryFacts.

(** X23. What discovery registers: the catalog has a key exactly when the
    key is [module:function] for the last segment of the name of a module
    of the package that imports and a function of that module whose name
    does not start with an underscore; and every entry records such a
    module path and function name under that key. A package that cannot
    be imported gives an empty catalog. *)
Theorem discovery_registers_public_functions
    (package : option (list Registry.ModuleInfo)) (key : string) :
  let registry := Registry._discover_modules_and_functions package in
  let found (module_path fn : string) : Prop :=
    exists modules module_info members,
      package = Some modules
      /\ In module_info modules
      /\ Registry.name module_info = module_path
      /\ Registry.functions module_info = Some members
      /\ In fn members
      /\ Py.startswith "_" fn = false
      /\ key = Py.last_segment "." module_path ++ ":" ++ fn in
  (is_Some (registry !! key) <-> exists module_path fn, found module_path fn)
  /\ (forall entry,
         registry !! key = Some entry ->
         exists module_path fn,
           entry = Registry.Discovered module_path fn
           /\ found module_path fn)
  /\ (package = None -> registry = ∅).
Proof.
  cbv zeta. split; [split|split].
  - intros [entry H]. apply discovery_sound in H.
    destruct H as (modules & mi & members & fn & -> & Hin & Hf & [Hfn Hpub] & Hk & _).
    exists (Registry.name mi), fn, modules, mi, members. repeat split; auto.
  - intros (mp & fn & modules & mi & members & -> & Hin & <- & Hf & Hfn & Hpub & ->).
    apply (discovery_complete modules mi members fn Hin Hf). now split.
  - intros entry H. apply discovery_sound in H.
    destruct H as (modules & mi & members & fn & -> & Hin & Hf & [Hfn Hpub] & Hk & ->).
    exists (Registry.name mi), fn. split; [reflexivity|].
    exists modules, mi, members. repeat split; auto.
  - now intros ->.
Qed.

(** X24. A mapping the resolver builds from a discovered catalog names its
    own key: looked up under [key], the mapping has a non-empty module and
    a public function with [key = module:function], and empty args and
    kwargs. So the action name the store persists for it,
    [module:function], is the catalog key again. *)
Theorem discovered_mapping_names_its_key
    (package : option (list Registry.ModuleInfo)) (key : string)
    (mapping : Mapping) :
  registry_mapping (Some (Registry._discover_modules_and_functions package)) key
  = Some mapping ->
  exists module function,
    mapping = mkMapping None (Some module) (Some function) (Some []) (Some [])
    /\ key = module ++ ":" ++ function
    /\ str_truthy module = true
    /\ str_truthy function = true
    /\ Py.startswith "_" function = false.
Proof.
  unfold registry_mapping.
  destruct (Registry._discover_modules_and_functions package !! key)
    as [entry|] eqn:Hentry; [|discriminate].
  destruct (discovery_sound package key entry Hentry)
    as (modules & mi & members & fn & _ & _ & _ & [_ Hpub] & Hk & ->).
  cbv beta iota zeta. cbn [optstr_truthy].
  destruct (str_truthy (Py.last_segment "." (Registry.name mi))) eqn:Hm;
    [|discriminate].
  destruct (str_truthy fn) eqn:Hf; [|discriminate].
  cbn [negb orb]. intros [= <-]. exists (Py.last_segment "." (Registry.name mi)), fn.
  auto.
Qed.

Lemma discovered_mapping_names_its_key_witness :
  exists module function,
    mkMapping None (Some "apps") (Some "open_app") (Some []) (Some [])
    = mkMapping None (Some module) (Some function) (Some []) (Some [])
    /\ "apps:open_app" = module ++ ":" ++ function
    /\ str_truthy module = true
    /\ str_truthy function = true
    /\ Py.startswith "_" function = false.
Proof.
  apply (discovered_mapping_names_its_key (Some Examples.package)
           "apps:open_app").
  vm_compute. reflexivity.
Defined.

Section MemoryFacts.

Import Memory.

Variable Item : Type.
Variable json_round_trip : Item -> option Item.
Variable get_function : Item -> string.
Variable get_args : Item -> list pyval.
Variable get_kwargs : Item -> pykwargs.
Variable History : Type.
Variable log_history : string -> string -> History -> outcome History.

Lemma append_length maxlen (d : list Item) x :
  (length d <= maxlen)%nat -> (length (append maxlen d x) <= maxlen)%nat.
Proof.
  intros H. unfold append.
  destruct (maxlen <? length (d ++ [x]))%nat eqn:Hfull.
  - destruct d as [|y d]; simpl in *; [lia|].
    rewrite length_app. simpl. lia.
  - apply Nat.ltb_ge in Hfull. exact Hfull.
Qed.

(** With room for a record at all, [append] puts it last. *)
Lemma append_last maxlen (d : list Item) x :
  (0 < maxlen)%nat -> exists d0, append maxlen d x = (d0 ++ [x])%list.
Proof.
  intros Hmax. unfold append.
  destruct (maxlen <? length (d ++ [x]))%nat eqn:Hfull; [|now exists d].
  destruct d as [|y d]; [|now exists d].
  apply Nat.ltb_lt in Hfull. simpl in Hfull. lia.
Qed.

Lemma append_room maxlen (d : list Item) x :
  (length d < maxlen)%nat -> append maxlen d x = (d ++ [x])%list.
Proof.
  intros H. unfold append.
  destruct (maxlen <? length (d ++ [x]))%nat eqn:Hfull; [|reflexivity].
  apply Nat.ltb_lt in Hfull. rewrite length_app in Hfull. simpl in Hfull. lia.
Qed.

Lemma append_full maxlen (d : list Item) x :
  (0 < maxlen)%nat ->
  length d = maxlen -> append maxlen d x = (tl d ++ [x])%list.
Proof.
  intros Hmax H. unfold append.
  destruct (maxlen <? length (d ++ [x]))%nat eqn:Hfull.
  - destruct d as [|y d]; [|reflexivity].
    apply Nat.ltb_lt in Hfull. simpl in *. lia.
  - apply Nat.ltb_ge in Hfull. rewrite length_app in Hfull. simpl in Hfull. lia.
Qed.

Lemma load_length maxlen f (d : list Item) :
  (length d <= maxlen)%nat ->
  (length (_load_long_term maxlen f d) <= maxlen)%nat.
Proof.
  unfold _load_long_term. destruct f as [|data| |]; auto.
  generalize (last_items maxlen data). intros items. revert d.
  induction items as [|[item|v] items IH]; intros d Hd; simpl; auto.
  apply IH. now apply append_length.
Qed.

(** What [data[-n:]] is for a positive [n], read from the other end. *)
Lemma rev_last_items {A} n (l : list A) :
  (0 < n)%nat -> rev (last_items n l) = firstn n (rev l).
Proof.
  intros Hn. unfold last_items.
  destruct (n =? 0)%nat eqn:Hz; [apply Nat.eqb_eq in Hz; lia|].
  symmetry. apply List.firstn_rev.
Qed.

Lemma pop_each_spec n (d removed : list Item) :
  (n <= length d)%nat ->
  pop_each n d removed
  = (firstn (length d - n) d,
     (removed ++ rev (skipn (length d - n) d))%list).
Proof.
  revert d removed. induction n as [|n IH]; intros d removed Hn; simpl.
  - rewrite Nat.sub_0_r, List.firstn_all, List.skipn_all. simpl.
    now rewrite app_nil_r.
  - destruct (nonempty_snoc d) as (rest & x & ->);
      [destruct d; simpl in *; [lia | discriminate]|].
    rewrite pop_snoc. rewrite length_app in *. simpl in *.
    rewrite IH by lia.
    replace (length rest + 1 - S n)%nat with (length rest - n)%nat by lia.
    rewrite List.firstn_app, List.skipn_app.
    replace (length rest - n - length rest)%nat with 0%nat by lia.
    simpl. rewrite app_nil_r, rev_app_distr. simpl.
    now rewrite <- app_assoc.
Qed.

(** [forget] in closed form. *)
Lemma forget_spec count (m : Memory Item History) :
  0 < count ->
  let n := Nat.min (Z.to_nat count) (length (short_term m)) in
  let removed := rev (skipn (length (short_term m) - n) (short_term m)) in
  forget count m
  = (removed,
     {| max_short_term := max_short_term m;
        short_term := firstn (length (short_term m) - n) (short_term m);
        _undo_redo := _undo_redo m;
        file := match removed with
                | [] => file m
                | _ :: _ => _remove_from_long_term (length removed) (file m)
                end;
        engine := engine m |}).
Proof.
  intros Hc n removed. unfold forget.
  destruct (count <=? 0) eqn:Hle; [apply Z.leb_le in Hle; lia|].
  fold n. rewrite (pop_each_spec n (short_term m) []) by (subst n; lia).
  reflexivity.
Qed.

Lemma forget_nothing count (m : Memory Item History) :
  count <= 0 -> forget count m = ([], m).
Proof.
  intros Hc. unfold forget.
  destruct (count <=? 0) eqn:Hle; [reflexivity | apply Z.leb_gt in Hle; lia].
Qed.

Lemma dicts_app (xs ys : list (Json Item)) :
  dicts (xs ++ ys) = (dicts xs ++ dicts ys)%list.
Proof. unfold dicts. apply flat_map_app. Qed.

(** Records that fit are loaded as they come. *)
Lemma load_fits maxlen (items : list (Json Item)) (d : list Item) :
  (length d + length items <= maxlen)%nat ->
  fold_left (fun d item =>
               match item with
               | JDict item => append maxlen d item
               | JOther _ => d
               end) items d
  = (d ++ dicts items)%list.
Proof.
  revert d. induction items as [|[item|v] items IH]; intros d Hd; simpl in *.
  - now rewrite app_nil_r.
  - rewrite append_room by lia. rewrite IH.
    + now rewrite <- app_assoc.
    + rewrite length_app. simpl. lia.
  - apply IH. lia.
Qed.

(** A deque of length zero stays empty. *)
Lemma load_nothing (items : list (Json Item)) :
  fold_left (fun d item =>
               match item with
               | JDict item => append 0 d item
               | JOther _ => d
               end) items []
  = [].
Proof. induction items as [|[item|v] items IH]; simpl; auto. Qed.

Lemma last_items_length {A} n (l : list A) :
  (0 < n)%nat -> (length (last_items n l) <= n)%nat.
Proof.
  intros Hn. unfold last_items.
  destruct (n =? 0)%nat eqn:Hz; [apply Nat.eqb_eq in Hz; lia|].
  rewrite List.length_skipn. lia.
Qed.

Lemma last_items_snoc {A} n (l : list A) x :
  (0 < n)%nat -> exists l0, last_items n (l ++ [x]) = (l0 ++ [x])%list.
Proof.
  intros Hn. unfold last_items.
  destruct (n =? 0)%nat eqn:Hz; [apply Nat.eqb_eq in Hz; lia|].
  rewrite length_app. simpl. rewrite List.skipn_app.
  replace (length l + 1 - n - length l)%nat with 0%nat by lia.
  simpl. eauto.
Qed.

Lemma init_short_term n undo_redo (f : File Item)
    (e : UndoRedo.World History) :
  0 <= n < 2 ^ 63 ->
  __init__ n undo_redo f e
  = Ok {| max_short_term := Z.to_nat n;
          short_term := match f with
                        | Items data =>
                            if n =? 0 then []
                            else dicts (last_items (Z.to_nat n) data)
                        | Missing | NotAList | Unreadable => []
                        end;
          _undo_redo := undo_redo;
          file := f;
          engine := e |}.
Proof.
  intros Hn. unfold __init__.
  destruct (n <? - 2 ^ 63) eqn:Hlow; [apply Z.ltb_lt in Hlow; lia|].
  destruct (2 ^ 63 <=? n) eqn:Hhigh; [apply Z.leb_le in Hhigh; lia|].
  destruct (n <? 0) eqn:Hneg; [apply Z.ltb_lt in Hneg; lia|].
  cbn [orb]. f_equal. f_equal. unfold _load_long_term.
  destruct f as [|data| |]; try reflexivity.
  destruct (n =? 0) eqn:Hz.
  - apply Z.eqb_eq in Hz. subst n. apply load_nothing.
  - apply Z.eqb_neq in Hz. rewrite load_fits; [reflexivity|].
    simpl. apply last_items_length. lia.
Qed.

(** [forget(1)] on a memory whose newest record is [x]. *)
Lemma forget_one (d0 : list Item) x (m : Memory Item History) :
  short_term m = (d0 ++ [x])%list ->
  forget 1 m
  = ([x],
     {| max_short_term := max_short_term m;
        short_term := d0;
        _undo_redo := _undo_redo m;
        file := _remove_from_long_term 1 (file m);
        engine := engine m |}).
Proof.
  intros Hst. unfold forget. simpl (1 <=? 0). cbv iota.
  rewrite Hst, length_app. simpl length.
  replace (Nat.min (Z.to_nat 1) (length d0 + 1)) with 1%nat by lia.
  simpl. now rewrite pop_snoc.
Qed.

End MemoryFacts.

(** X25. The short-term memory never holds more than [max_short_term]
    records: a new [Memory] starts within the bound, whatever the
    long-term file holds, and [remember] and [forget] keep it there. *)
Theorem short_term_memory_is_bounded
    (Item : Type) (json_round_trip : Item -> option Item)
    (get_function : Item -> string) (get_args : Item -> list pyval)
    (get_kwargs : Item -> pykwargs) (History : Type)
    (log_history : string -> string -> History -> outcome History)
    (m : Memory.Memory Item History) :
  Memory.reachable Item json_round_trip get_function get_args get_kwargs
    History log_history m ->
  (length (Memory.short_term m) <= Memory.max_short_term m)%nat.
Proof.
  induction 1 as [n undo_redo f e m Hinit | record m _ IH | count m _ IH].
  - unfold Memory.__init__ in Hinit.
    destruct ((n <? - 2 ^ 63) || (2 ^ 63 <=? n)); [discriminate|].
    destruct (n <? 0); [discriminate|]. injection Hinit as <-. simpl.
    apply load_length. simpl. lia.
  - simpl. now apply append_length.
  - destruct (Z.le_gt_cases count 0) as [Hc|Hc].
    + now rewrite forget_nothing.
    + rewrite forget_spec by lia. simpl. rewrite List.length_firstn. lia.
Qed.

Lemma short_term_memory_is_bounded_witness :
  (length (Memory.short_term
             (Memory.remember Examples.MemoryRecord Examples.json_round_trip
                Examples.record_function (fun _ => []) (fun _ => [])
                Database.DB Examples.log_history Examples.started_player
                (Memory.remember Examples.MemoryRecord Examples.json_round_trip
                   Examples.record_function (fun _ => []) (fun _ => [])
                   Database.DB Examples.log_history Examples.opened_chrome
                   Examples.memory)))
   <= 2)%nat.
Proof.
  apply (short_term_memory_is_bounded Examples.MemoryRecord
           Examples.json_round_trip Examples.record_function
           (fun _ => []) (fun _ => []) Database.DB Examples.log_history).
  apply Memory.reach_remember, Memory.reach_remember.
  apply (Memory.reach_new _ _ _ _ _ _ _ 2 true
           (Memory.Items [Memory.JDict Examples.opened_mail])
           (UndoRedo.__init__ Examples.chrome_db)).
  reflexivity.
Defined.

(** X26. [recall(limit)] returns the [limit] most recent records of the
    short-term memory, newest first, and all of them when there are fewer;
    it returns nothing for a limit of zero or less. After [remember] in a
    memory with room for at least one record, the record remembered comes
    first. *)
Theorem recall_is_newest_first
    (Item : Type) (json_round_trip : Item -> option Item)
    (get_function : Item -> string) (get_args : Item -> list pyval)
    (get_kwargs : Item -> pykwargs) (History : Type)
    (log_history : string -> string -> History -> outcome History)
    (limit : Z) (m : Memory.Memory Item History) :
  Memory.recall limit m
  = firstn (Z.to_nat limit) (rev (Memory.short_term m))
  /\ (forall record,
         (0 < Memory.max_short_term m)%nat ->
         0 < limit ->
         exists older,
           Memory.recall limit
             (Memory.remember Item json_round_trip get_function get_args
                get_kwargs History log_history record m)
           = record :: older).
Proof.
  assert (Hrecall : forall m' : Memory.Memory Item History,
             Memory.recall limit m'
             = firstn (Z.to_nat limit) (rev (Memory.short_term m'))).
  { intros m'. unfold Memory.recall. destruct (limit <=? 0) eqn:Hle.
    - apply Z.leb_le in Hle. now replace (Z.to_nat limit) with 0%nat by lia.
    - apply Z.leb_gt in Hle. apply rev_last_items. lia. }
  split; [apply Hrecall|].
  intros record Hmax Hlimit. rewrite Hrecall. simpl.
  destruct (append_last Item (Memory.max_short_term m) (Memory.short_term m)
              record Hmax) as [d0 ->].
  rewrite rev_app_distr. simpl.
  destruct (Z.to_nat limit) as [|k] eqn:Hk; [lia|]. simpl. eauto.
Qed.

(** X27. [forget(count)] returns exactly the records [recall(count)]
    shows, newest first, and takes them, and nothing else, off the
    short-term memory; it cuts as many items off the end of the list in
    the long-term file as it returns records, and leaves the undo/redo
    engine as it is. *)
Theorem forget_returns_what_recall_shows
    (Item History : Type) (count : Z) (m : Memory.Memory Item History) :
  let out := Memory.forget count m in
  fst out = Memory.recall count m
  /\ Memory.short_term m = (Memory.short_term (snd out) ++ rev (fst out))%list
  /\ (forall data,
         Memory.file m = Memory.Items data ->
         Memory.file (snd out)
         = Memory.Items (firstn (length data - length (fst out)) data))
  /\ Memory.engine (snd out) = Memory.engine m
  /\ Memory.max_short_term (snd out) = Memory.max_short_term m.
Proof.
  cbv zeta. destruct (Z.le_gt_cases count 0) as [Hc|Hc].
  - rewrite forget_nothing by exact Hc. simpl.
    unfold Memory.recall. destruct (count <=? 0) eqn:Hle;
      [|apply Z.leb_gt in Hle; lia].
    split; [reflexivity|]. split; [now rewrite app_nil_r|].
    split; [|now split].
    intros data ->. now rewrite Nat.sub_0_r, List.firstn_all.
  - rewrite forget_spec by lia. cbv zeta. cbn [fst snd].
    set (st := Memory.short_term m).
    set (n := Nat.min (Z.to_nat count) (length st)).
    cbn [Memory.short_term Memory.file Memory.engine Memory.max_short_term].
    split; [|split; [|split; [|now split]]].
    + unfold Memory.recall. destruct (count <=? 0) eqn:Hle;
        [apply Z.leb_le in Hle; lia|].
      fold st. unfold Memory.last_items.
      destruct (Z.to_nat count =? 0)%nat eqn:Hz;
        [apply Nat.eqb_eq in Hz; lia|].
      f_equal. f_equal. subst n. lia.
    + rewrite rev_involutive. symmetry. apply List.firstn_skipn.
    + intros data Hfile.
      destruct (rev (skipn (length st - n) st)) as [|x removed] eqn:Hremoved.
      * rewrite Hfile. simpl. now rewrite Nat.sub_0_r, List.firstn_all.
      * rewrite Hfile. unfold Memory._remove_from_long_term. simpl.
        destruct data as [|j data]; reflexivity.
Qed.

(** X28. Remembering a record that [json] can encode and then forgetting
    one record gives the record back and leaves the list in the long-term
    file as it was. The short-term memory is as it was too when it had
    room for the record; when it was full, the oldest record it held is
    gone. *)
Theorem remember_then_forget_restores_file
    (Item : Type) (json_round_trip : Item -> option Item)
    (get_function : Item -> string) (get_args : Item -> list pyval)
    (get_kwargs : Item -> pykwargs) (History : Type)
    (log_history : string -> string -> History -> outcome History)
    (record written : Item) (data : list (Memory.Json Item))
    (m : Memory.Memory Item History) :
  json_round_trip record = Some written ->
  Memory.file m = Memory.Items data ->
  (0 < Memory.max_short_term m)%nat ->
  let out :=
    Memory.forget 1
      (Memory.remember Item json_round_trip get_function get_args get_kwargs
         History log_history record m) in
  fst out = [record]
  /\ Memory.file (snd out) = Memory.Items data
  /\ ((length (Memory.short_term m) < Memory.max_short_term m)%nat ->
      Memory.short_term (snd out) = Memory.short_term m)
  /\ (length (Memory.short_term m) = Memory.max_short_term m ->
      Memory.short_term (snd out) = tl (Memory.short_term m)).
Proof.
  intros Hjson Hfile Hmax. cbv zeta.
  destruct (append_last Item (Memory.max_short_term m) (Memory.short_term m)
              record Hmax) as [d0 Hd0].
  rewrite (forget_one Item History d0 record) by exact Hd0.
  cbn [fst snd Memory.short_term Memory.file Memory.remember].
  split; [reflexivity|]. split.
  - unfold Memory._append_long_term. rewrite Hfile, Hjson.
    unfold Memory._remove_from_long_term, Memory.loaded_history.
    rewrite length_app. simpl length.
    destruct (0 <? length data + 1)%nat eqn:Hpos;
      [|apply Nat.ltb_ge in Hpos; lia].
    replace (length data + 1 - 1)%nat with (length data) by lia.
    simpl. f_equal.
    now rewrite List.firstn_app, List.firstn_all, Nat.sub_diag, app_nil_r.
  - split.
    + intros Hroom.
      rewrite (append_room Item _ _ record Hroom) in Hd0.
      now apply app_inj_tail in Hd0.
    + intros Hfull.
      rewrite (append_full Item _ _ record Hmax Hfull) in Hd0.
      now apply app_inj_tail in Hd0.
Qed.

Lemma remember_then_forget_restores_file_witness :
  let out :=
    Memory.forget 1
      (Memory.remember Examples.MemoryRecord Examples.json_round_trip
         Examples.record_function (fun _ => []) (fun _ => [])
         Database.DB Examples.log_history Examples.opened_chrome
         Examples.memory) in
  fst out = [Examples.opened_chrome]
  /\ Memory.file (snd out) = Memory.Items [Memory.JDict Examples.opened_mail]
  /\ ((length (Memory.short_term Examples.memory)
       < Memory.max_short_term Examples.memory)%nat ->
      Memory.short_term (snd out) = Memory.short_term Examples.memory)
  /\ (length (Memory.short_term Examples.memory)
      = Memory.max_short_term Examples.memory ->
      Memory.short_term (snd out) = tl (Memory.short_term Examples.memory)).
Proof.
  apply (remember_then_forget_restores_file Examples.MemoryRecord
           Examples.json_round_trip Examples.record_function
           (fun _ => []) (fun _ => []) Database.DB Examples.log_history
           Examples.opened_chrome Examples.opened_chrome
           [Memory.JDict Examples.opened_mail] Examples.memory).
  - reflexivity.
  - reflexivity.
  - simpl. lia.
Defined.

(** X29. A record [json] cannot encode costs the long-term memory: after
    [remember] of such a record the file is unreadable, whatever list it
    held. And an unreadable file is never written again: [remember] and
    [forget] leave it as it is, while the short-term memory goes on
    working, and a new [Memory] over it starts empty. *)
Theorem unreadable_file_is_never_rewritten
    (Item : Type) (json_round_trip : Item -> option Item)
    (get_function : Item -> string) (get_args : Item -> list pyval)
    (get_kwargs : Item -> pykwargs) (History : Type)
    (log_history : string -> string -> History -> outcome History) :
  let remember :=
    Memory.remember Item json_round_trip get_function get_args get_kwargs
      History log_history in
  (forall record m,
      json_round_trip record = None ->
      Memory.file (remember record m) = Memory.Unreadable)
  /\ (forall record count m,
         Memory.file m = Memory.Unreadable ->
         Memory.file (remember record m) = Memory.Unreadable
         /\ Memory.file (snd (Memory.forget count m)) = Memory.Unreadable
         /\ fst (Memory.forget count m) = Memory.recall count m)
  /\ (forall n undo_redo (e : UndoRedo.World History)
             (m : Memory.Memory Item History),
         Memory.__init__ n undo_redo Memory.Unreadable e = Ok m ->
         Memory.short_term m = []).
Proof.
  cbv zeta. split; [|split].
  - intros record m Hjson. simpl. unfold Memory._append_long_term.
    rewrite Hjson. now destruct (Memory.file m).
  - intros record count m Hfile. split; [|split].
    + simpl. now rewrite Hfile.
    + destruct (Z.le_gt_cases count 0) as [Hc|Hc].
      * now rewrite forget_nothing.
      * rewrite forget_spec by lia. cbv zeta. cbn [snd Memory.file].
        rewrite Hfile. now destruct (rev _).
    + destruct (Z.le_gt_cases count 0) as [Hc|Hc].
      * rewrite forget_nothing by exact Hc. unfold Memory.recall.
        destruct (count <=? 0) eqn:Hle;
          [reflexivity | apply Z.leb_gt in Hle; lia].
      * rewrite forget_spec by lia. cbv zeta. cbn [fst].
        unfold Memory.recall, Memory.last_items.
        destruct (count <=? 0) eqn:Hle; [apply Z.leb_le in Hle; lia|].
        destruct (Z.to_nat count =? 0)%nat eqn:Hz;
          [apply Nat.eqb_eq in Hz; lia|].
        f_equal. f_equal. lia.
  - intros n undo_redo e m. unfold Memory.__init__.
    destruct ((n <? - 2 ^ 63) || (2 ^ 63 <=? n)); [discriminate|].
    destruct (n <? 0); [discriminate|]. now intros [= <-].
Qed.

(** X30. What a new [Memory] starts with: a [max_short_term] that does
    not fit a signed 64-bit integer is refused with [OverflowError] and a
    negative one with [ValueError]; otherwise the short-term memory holds,
    in order, the dicts among the last [max_short_term] items of the list
    in the file (entries that are not dicts are skipped but count toward
    the limit), and nothing when the file is missing, unreadable or not a
    list, or when [max_short_term] is zero. So a record remembered in one
    session is the newest record of the next: [recall(1)] returns it as
    [json] reads it back. *)
Theorem new_memory_loads_recent_records
    (Item : Type) (json_round_trip : Item -> option Item)
    (get_function : Item -> string) (get_args : Item -> list pyval)
    (get_kwargs : Item -> pykwargs) (History : Type)
    (log_history : string -> string -> History -> outcome History)
    (n : Z) (undo_redo : bool) (f : Memory.File Item)
    (e : UndoRedo.World History) :
  (n < - 2 ^ 63 \/ 2 ^ 63 <= n ->
   Memory.__init__ n undo_redo f e
   = Raise (Exn "OverflowError"
                "Python int too large to convert to C ssize_t"))
  /\ (- 2 ^ 63 <= n < 0 ->
      Memory.__init__ n undo_redo f e
      = Raise (ValueError "maxlen must be non-negative"))
  /\ (0 <= n < 2 ^ 63 ->
      exists m,
        Memory.__init__ n undo_redo f e = Ok m
        /\ Memory.short_term m
           = match f with
             | Memory.Items data =>
                 if n =? 0 then []
                 else Memory.dicts (Memory.last_items (Z.to_nat n) data)
             | Memory.Missing | Memory.NotAList | Memory.Unreadable => []
             end)
  /\ (forall record written (earlier : Memory.Memory Item History),
         0 < n < 2 ^ 63 ->
         f = Memory.file
               (Memory.remember Item json_round_trip get_function get_args
                  get_kwargs History log_history record earlier) ->
         json_round_trip record = Some written ->
         Memory.file earlier <> Memory.Unreadable ->
         exists m,
           Memory.__init__ n undo_redo f e = Ok m
           /\ Memory.recall 1 m = [written]).
Proof.
  split; [|split; [|split]].
  - intros Hn. unfold Memory.__init__.
    destruct (n <? - 2 ^ 63) eqn:Hlow; [reflexivity|].
    destruct (2 ^ 63 <=? n) eqn:Hhigh; [reflexivity|].
    apply Z.ltb_ge in Hlow. apply Z.leb_gt in Hhigh. lia.
  - intros Hn. unfold Memory.__init__.
    destruct (n <? - 2 ^ 63) eqn:Hlow; [apply Z.ltb_lt in Hlow; lia|].
    destruct (2 ^ 63 <=? n) eqn:Hhigh; [apply Z.leb_le in Hhigh; lia|].
    destruct (n <? 0) eqn:Hneg; [reflexivity | apply Z.ltb_ge in Hneg; lia].
  - intros Hn. eexists. split; [now apply init_short_term | reflexivity].
  - intros record written earlier Hn -> Hjson Hfile.
    eexists. split; [apply init_short_term; lia|].
    cbn [Memory.file Memory.remember]. unfold Memory._append_long_term.
    rewrite Hjson.
    assert (Hitems : exists loaded,
               match Memory.file earlier with
               | Memory.Unreadable => Memory.Unreadable
               | _ => Memory.Items
                        (Memory.loaded_history (Memory.file earlier)
                         ++ [Memory.JDict written])
               end = Memory.Items (loaded ++ [Memory.JDict written])).
    { destruct (Memory.file earlier); try contradiction; eauto. }
    destruct Hitems as [loaded ->].
    destruct (n =? 0) eqn:Hz; [apply Z.eqb_eq in Hz; lia|].
    destruct (last_items_snoc (Z.to_nat n) loaded (Memory.JDict written))
      as [l0 Hl0]; [lia|].
    unfold Memory.recall. simpl. rewrite Hl0, dicts_app. simpl.
    rewrite rev_last_items by (simpl; lia).
    now rewrite rev_app_distr.
Qed.
